(** * scripts/debug-fb-www.js: the fb-www debugging harness

    A shallow embedding of the harness that compiles [fb-www/input.js]
    with Prepack, writes [fb-www/output.js] and prints the React
    evaluation graph together with the status of the components listed
    in [fb-www/components.txt].

    The script is sequential glue around module-level mutable state
    ([errorsCaptured], [components], [uniqueEvaluatedComponents]), the
    console and the file system.  All of it is gathered in one record,
    [World], that is threaded through a state-and-exception monad [Js].
    The external collaborators ([chalk], [prepackSources]) are taken as
    parameters. *)

From Stdlib Require Import Ascii.
From stdpp Require Import base strings list gmap pretty.

(** ** Values exchanged with the compiler *)

(** A diagnostic handed to [errorHandler]; the script reads its
    [severity] and [message] properties only. *)
Record Diag := mkDiag {
  severity : string;
  message : string;
}.

(** What the script can have in its hands where it expects an exception:
    a [TypeError] raised by the engine, a rejected file-system promise,
    or whatever [prepackSources] threw (an error object of which the
    script reads [natickStack] and [stack]). *)
Inductive jsError :=
  | TypeError (msg : string)
  | FsError (code path : string)
  | CompilerError (natickStack stack : option string).

(** A value passed to [console.error]. *)
Inductive logged :=
  | LText (s : string)
  | LDiag (d : Diag)
  | LStack (e : jsError)
  | LUndefined.

(** A scalar found where an evaluated node was expected. *)
Inductive scalar :=
  | SNum (n : Z)
  | SBool (b : bool)
  | SStr (s : string).

(** The value handed to [printReactEvaluationGraph]: an array of nodes,
    a node record [{name, status, message, children}], [undefined] (an
    absent [children] property, or [null]), or a scalar. *)
Local Unset Elimination Schemes.
Inductive evalNode :=
  | NArray (items : list evalNode)
  | NLeaf (name status message : string) (children : evalNode)
  | NAbsent
  | NScalar (v : scalar).
Local Set Elimination Schemes.

(** [serialized.reactStatistics] *)
Record Stats := mkStats {
  evaluatedRootNodes : evalNode;
  componentsEvaluated : nat;
  inlinedComponents : nat;
  optimizedTrees : nat;
}.

(** The object returned by [prepackSources]. *)
Record Serialized := mkSerialized {
  code : string;
  reactStatistics : Stats;
}.

(** One call of [prepackSources], seen from the script: the compiler
    returns, throws, or calls [options.errorHandler] on a diagnostic and
    goes on according to the string the handler returns. *)
Inductive compilerRun :=
  | Done (result : Serialized)
  | Raise (e : jsError)
  | Report (d : Diag) (k : string → compilerRun).

(** The colour functions of the [chalk] package that the script uses. *)
Record Chalk := mkChalk {
  gray : string → string;
  green : string → string;
  red : string → string;
  yellow : string → string;
  inverse : string → string;
  bold : string → string;
}.

(** ** The values of the [components] map *)

(** A value of the [components] map: a string (the script stores
    ["missing"]) or an array of strings. *)
Inductive trackValue :=
  | VStr (s : string)
  | VArr (l : list string).

Global Instance trackValue_eq_dec : EqDecision trackValue.
Proof. solve_decision. Defined.

(** [v === "missing"] *)
Definition isMissing (v : trackValue) : bool :=
  match v with
  | VStr s => bool_decide (s = "missing")
  | VArr _ => false
  end.

(** ** A JavaScript [Map] with string keys

    Iteration follows insertion order, and [set] on a key that is
    already present keeps the key where it is. *)
Module JsMap.

Definition t (V : Type) := list (string * V).

Definition empty {V} : t V := [].

Fixpoint get {V} (k : string) (m : t V) : option V :=
  match m with
  | [] => None
  | (k', v) :: rest => if decide (k = k') then Some v else get k rest
  end.

Definition has {V} (k : string) (m : t V) : bool :=
  match get k m with Some _ => true | None => false end.

Fixpoint set {V} (k : string) (v : V) (m : t V) : t V :=
  match m with
  | [] => [(k, v)]
  | (k', v') :: rest =>
      if decide (k = k') then (k, v) :: rest else (k', v') :: set k v rest
  end.

Definition size {V} (m : t V) : nat := length m.

Definition keys {V} (m : t V) : list string := m.*1.

End JsMap.

(** ** The world of the script *)

Record World := mkWorld {
  files : gmap string string;
  stdout : list string;
  stderr : list logged;
  errorsCaptured : list Diag;
  components : JsMap.t trackValue;
  uniqueEvaluatedComponents : nat;
  startTime : Z;
  dateNow : Z;
  exitCode : option Z;
}.

Definition with_files (f : gmap string string) (w : World) : World :=
  mkWorld f (stdout w) (stderr w) (errorsCaptured w) (components w)
    (uniqueEvaluatedComponents w) (startTime w) (dateNow w) (exitCode w).

Definition with_stdout (o : list string) (w : World) : World :=
  mkWorld (files w) o (stderr w) (errorsCaptured w) (components w)
    (uniqueEvaluatedComponents w) (startTime w) (dateNow w) (exitCode w).

Definition with_stderr (o : list logged) (w : World) : World :=
  mkWorld (files w) (stdout w) o (errorsCaptured w) (components w)
    (uniqueEvaluatedComponents w) (startTime w) (dateNow w) (exitCode w).

Definition with_errorsCaptured (l : list Diag) (w : World) : World :=
  mkWorld (files w) (stdout w) (stderr w) l (components w)
    (uniqueEvaluatedComponents w) (startTime w) (dateNow w) (exitCode w).

Definition with_components (m : JsMap.t trackValue) (w : World) : World :=
  mkWorld (files w) (stdout w) (stderr w) (errorsCaptured w) m
    (uniqueEvaluatedComponents w) (startTime w) (dateNow w) (exitCode w).

Definition with_unique (n : nat) (w : World) : World :=
  mkWorld (files w) (stdout w) (stderr w) (errorsCaptured w) (components w)
    n (startTime w) (dateNow w) (exitCode w).

Definition with_exitCode (c : option Z) (w : World) : World :=
  mkWorld (files w) (stdout w) (stderr w) (errorsCaptured w) (components w)
    (uniqueEvaluatedComponents w) (startTime w) (dateNow w) c.

(** ** The monad of statements: state and exceptions

    A statement runs in a world and either returns a value or throws;
    the effects made before a throw stay. *)

Inductive outcome (A : Type) :=
  | Returned (a : A)
  | Thrown (e : jsError).
Arguments Returned {A} a.
Arguments Thrown {A} e.

Definition Js (A : Type) : Type := World → outcome A * World.

Global Instance Js_ret : MRet Js := λ A a w, (Returned a, w).

Global Instance Js_bind : MBind Js := λ A B f m w,
  match m w with
  | (Returned a, w') => f a w'
  | (Thrown e, w') => (Thrown e, w')
  end.

Global Instance Js_throw : MThrow jsError Js := λ A e w, (Thrown e, w).

Definition modify (f : World → World) : Js unit := λ w, (Returned (), f w).

Definition gets {A} (f : World → A) : Js A := λ w, (Returned (f w), w).

(** [try { body } catch (e) { handler e }] *)
Definition tryCatch {A} (body : Js A) (handler : jsError → Js A) : Js A :=
  λ w, match body w with
       | (Returned a, w') => (Returned a, w')
       | (Thrown e, w') => handler e w'
       end.

(** [for (let x of xs) { body x }] *)
Definition forOf {A} (body : A → Js unit) : list A → Js unit :=
  fix loop (xs : list A) : Js unit :=
    match xs with
    | [] => mret ()
    | x :: rest => body x ;; loop rest
    end.

(** ** The console and the file system *)

Definition console_log (line : string) : Js unit :=
  modify (λ w, with_stdout (stdout w ++ [line]) w).

Definition console_error (v : logged) : Js unit :=
  modify (λ w, with_stderr (stderr w ++ [v]) w).

(** [process.exit(c)] *)
Definition process_exit (c : Z) : Js unit :=
  modify (with_exitCode (Some c)).

(** The state of the module once its top-level [let]s have run, in a
    directory holding [fs]: [t0] is what [Date.now()] gave for
    [startTime] and [t1] what it gives when the summary is printed. *)
Definition initialWorld (fs : gmap string string) (t0 t1 : Z) : World :=
  mkWorld fs [] [] [] JsMap.empty 0 t0 t1 None.

Definition existsSync (path : string) : Js bool :=
  gets (λ w, bool_decide (is_Some (files w !! path))).

(** [await readFileAsync(path, "utf8")] *)
Definition readFileAsync (path : string) : Js string :=
  λ w, match files w !! path with
       | Some text => (Returned text, w)
       | None => (Thrown (FsError "ENOENT" path), w)
       end.

(** [await writeFileAsync(path, text)] *)
Definition writeFileAsync (path text : string) : Js unit :=
  modify (λ w, with_files (<[path := text]> (files w)) w).

(** ** [errorHandler] (lines 27-37) *)

Definition errorHandler (diag : Diag) : Js string :=
  modify (λ w, with_errorsCaptured (errorsCaptured w ++ [diag]) w) ;;
  if decide (severity diag = "Information") then
    console_log (message diag) ;;
    mret "Recover"
  else if decide (severity diag ≠ "Warning") then
    mret "Fail"
  else
    mret "Recover".

(** ** Strings *)

Definition LF : ascii := "010"%char.

(** [c.toLowerCase()] on the ASCII letters; the statuses Prepack reports
    are ASCII. *)
Definition lowerAscii (c : ascii) : ascii :=
  let n := nat_of_ascii c in
  if bool_decide (65 ≤ n ≤ 90) then ascii_of_nat (n + 32) else c.

Fixpoint toLowerCase (s : string) : string :=
  match s with
  | EmptyString => EmptyString
  | String c rest => String (lowerAscii c) (toLowerCase rest)
  end.

(** [s.split(sep)] for a one-character separator: the pieces between the
    separators, empty ones included; never an empty array. *)
Fixpoint split (sep : ascii) (s : string) : list string :=
  match s with
  | EmptyString => [EmptyString]
  | String c rest =>
      if decide (c = sep) then EmptyString :: split sep rest
      else match split sep rest with
           | piece :: pieces => String c piece :: pieces
           | [] => [String c EmptyString]
           end
  end.

Fixpoint spaces (n : nat) : string :=
  match n with
  | O => EmptyString
  | S n' => String " " (spaces n')
  end.

(** [s.padStart(targetLength)] with the default filler, a space.  The
    script pads to [line.length + depth], so that the unit in which
    lengths are counted does not matter. *)
Definition padStart (s : string) (targetLength : nat) : string :=
  if decide (targetLength ≤ String.length s) then s
  else spaces (targetLength - String.length s) +:+ s.

(** [e.natickStack || e.stack]: the engine's errors have no
    [natickStack]; an empty string is falsy. *)
Definition bestTrace (e : jsError) : logged :=
  match e with
  | CompilerError natickStack stack =>
      let stackValue :=
        match stack with Some s => LText s | None => LUndefined end in
      match natickStack with
      | Some s => if decide (s = "") then stackValue else LText s
      | None => stackValue
      end
  | _ => LStack e
  end.

(** The three paths, resolved against the working directory; [files]
    is keyed by paths relative to it. *)
Definition inputPath : string := "fb-www/input.js".
Definition outputPath : string := "fb-www/output.js".
Definition componentsListPath : string := "fb-www/components.txt".

(** ** The script *)

Section Script.

Context (chalk : Chalk).
(** [prepackSources([{filePath: "", fileContents: source,
    sourceMapContents: ""}], prepackOptions)], as a function of
    [source]: the options are fixed, and the compiler reaches the
    module's state through [errorHandler] only. *)
Context (prepackSources : string → compilerRun).

(** The compiler at work, with [prepackOptions.errorHandler] answering
    its diagnostics. *)
Fixpoint runCompiler (run : compilerRun) : Js Serialized :=
  match run with
  | Done result => mret result
  | Raise e => mthrow e
  | Report diag k =>
      answer ← errorHandler diag;
      runCompiler (k answer)
  end.

(** [compileSource] (lines 58-73) *)
Definition compileSource (source : string) : Js (Stats * string) :=
  serialized ←
    tryCatch (runCompiler (prepackSources source))
      (λ e,
        captured ← gets errorsCaptured;
        forOf (λ error, console_error (LDiag error)) captured ;;
        mthrow e);
  mret (reactStatistics serialized, code serialized).

(** [readComponentsList] (lines 75-84) *)
Definition readComponentsList : Js unit :=
  found ← existsSync componentsListPath;
  if found : bool then
    componentsList ← readFileAsync componentsListPath;
    let componentNames := split LF componentsList in
    forOf (λ componentName,
             modify (λ w, with_components
                            (JsMap.set componentName (VStr "missing")
                               (components w)) w))
          componentNames
  else
    mret ().

(** [compileFile] (lines 86-91) *)
Definition compileFile : Js Stats :=
  source ← readFileAsync inputPath;
  '(stats, code) ← compileSource source;
  writeFileAsync outputPath code ;;
  mret stats.

(** The line of a node, before it is indented (lines 99-109). *)
Definition nodeLine (name status message : string) : string :=
  let status := toLowerCase status in
  let message := if decide (message ≠ "") then ": " +:+ message else "" in
  if decide (status = "inlined") then
    gray chalk "-" +:+ " " +:+ green chalk name +:+ " "
      +:+ gray chalk ("(" +:+ (status +:+ message) +:+ ")")
  else if decide (status = "unsupported_completion"
                  ∨ status = "unknown_type" ∨ status = "bail-out") then
    gray chalk "-" +:+ " " +:+ red chalk name +:+ " "
      +:+ gray chalk ("(" +:+ (status +:+ message) +:+ ")")
  else
    gray chalk "-" +:+ " " +:+ yellow chalk name +:+ " "
      +:+ gray chalk ("(" +:+ (status +:+ message) +:+ ")").

(** The update of [components] for a node (lines 110-120).  The array
    of a name is reachable through the map only, so pushing onto it is
    storing the longer array under the same key. *)
Definition trackComponent (name status : string) : Js unit :=
  has ← gets (λ w, JsMap.has name (components w));
  if has : bool then
    current ← gets (λ w, JsMap.get name (components w));
    match current with
    | Some (VStr currentStatus) =>
        if decide (currentStatus = "missing") then
          modify (λ w, with_unique (uniqueEvaluatedComponents w + 1) w) ;;
          modify (λ w, with_components
                         (JsMap.set name (VArr [currentStatus])
                            (components w)) w)
        else mret ()
    | Some (VArr currentStatus) =>
        modify (λ w, with_components
                       (JsMap.set name (VArr (currentStatus ++ [status]))
                          (components w)) w)
    | None => mret ()
    end
  else mret ().

(** What [printReactEvaluationGraph] does with a node record before
    it goes into its children (lines 99-121). *)
Definition renderNode (name status message : string) (depth : nat)
    : Js unit :=
  let line := nodeLine name status message in
  trackComponent name (toLowerCase status) ;;
  console_log (padStart line (String.length line + depth)).

(** [printReactEvaluationGraph] (lines 93-124) *)
Fixpoint printReactEvaluationGraph (evaluatedRootNode : evalNode)
    (depth : nat) {struct evaluatedRootNode} : Js unit :=
  match evaluatedRootNode with
  | NArray items =>
      forOf (λ child, printReactEvaluationGraph child depth) items
  | NLeaf name status message children =>
      renderNode name status message depth ;;
      printReactEvaluationGraph children (depth + 2)
  | NAbsent =>
      mthrow (TypeError "Cannot read property 'status' of undefined")
  | NScalar _ =>
      mthrow (TypeError "Cannot read property 'toLowerCase' of undefined")
  end.

(** The line of one entry of [components] (lines 136-140). *)
Definition statusLine (entry : string * trackValue) : string :=
  let '(componentName, status) := entry in
  if isMissing status then red chalk "✖" +:+ " " +:+ componentName
  else green chalk "✔" +:+ " " +:+ componentName.

(** The callback run on the statistics (lines 128-154). *)
Definition report (result : Stats) : Js unit :=
  console_log (String LF (inverse chalk "=== Compilation Complete ===")
               +:+ String LF "") ;;
  console_log (bold chalk "Evaluated Tree:") ;;
  printReactEvaluationGraph (evaluatedRootNodes result) 0 ;;
  size ← gets (λ w, JsMap.size (components w));
  (if decide (0 < size) then
     console_log (String LF (inverse chalk "=== Status ===")
                  +:+ String LF "") ;;
     entries ← gets components;
     forOf (λ entry, console_log (statusLine entry)) entries
   else mret () : Js unit) ;;
  console_log (String LF (inverse chalk "=== Summary ===")
               +:+ String LF "") ;;
  size ← gets (λ w, JsMap.size (components w));
  (if decide (0 < size) then
     unique ← gets uniqueEvaluatedComponents;
     console_log (gray chalk "Optimized Components" +:+ ": "
                  +:+ pretty unique +:+ "/" +:+ pretty size)
   else mret () : Js unit) ;;
  console_log (gray chalk "Optimized Nodes" +:+ ": "
               +:+ pretty (componentsEvaluated result)) ;;
  console_log (gray chalk "Inlined Nodes" +:+ ": "
               +:+ pretty (inlinedComponents result)) ;;
  console_log (gray chalk "Optimized Trees" +:+ ": "
               +:+ pretty (optimizedTrees result)) ;;
  timeTaken ← gets (λ w, ((dateNow w - startTime w) `div` 1000)%Z);
  console_log (gray chalk "Compile time" +:+ ": "
               +:+ pretty timeTaken +:+ "s" +:+ String LF "").

(** The promise chain (lines 126-158). *)
Definition main : Js unit :=
  tryCatch
    (readComponentsList ;;
     result ← compileFile;
     report result)
    (λ e,
      console_error (bestTrace e) ;;
      process_exit 1).

End Script.

(** ** The evaluation tree, read without running the script *)

(** A node record met by the walk: its fields, and its depth, the number
    of node records above it. *)
Record Visit := mkVisit {
  vDepth : nat;
  vName : string;
  vStatus : string;
  vMessage : string;
}.

Definition deeper (v : Visit) : Visit :=
  mkVisit (S (vDepth v)) (vName v) (vStatus v) (vMessage v).

(** The visits of the items of an array: those of each item in turn, up
    to the first item that stops the walk. *)
Definition visitsEach (visits : evalNode → list Visit * option jsError)
    : list evalNode → list Visit * option jsError :=
  fix each (items : list evalNode) :=
    match items with
    | [] => ([], None)
    | item :: rest =>
        match visits item with
        | (vs, None) => let '(vs', stop) := each rest in (vs ++ vs', stop)
        | (vs, Some e) => (vs, Some e)
        end
    end.

(** The node records of a tree in document order, up to the first place
    that holds neither an array nor a node record, and the error that
    place raises ([None] when there is no such place). *)
Fixpoint visits (node : evalNode) : list Visit * option jsError :=
  match node with
  | NArray items => visitsEach visits items
  | NLeaf name status message children =>
      let '(vs, stop) := visits children in
      (mkVisit 0 name status message :: map deeper vs, stop)
  | NAbsent =>
      ([], Some (TypeError "Cannot read property 'status' of undefined"))
  | NScalar _ =>
      ([], Some (TypeError "Cannot read property 'toLowerCase' of undefined"))
  end.

(** Every place of the tree holds an array or a node record. *)
Fixpoint wellFormed (node : evalNode) : bool :=
  match node with
  | NArray items => forallb wellFormed items
  | NLeaf _ _ _ children => wellFormed children
  | NAbsent | NScalar _ => false
  end.

(** The number of node records of a tree. *)
Fixpoint countNodes (node : evalNode) : nat :=
  match node with
  | NArray items => list_sum (map countNodes items)
  | NLeaf _ _ _ children => S (countNodes children)
  | NAbsent | NScalar _ => 0
  end.

(** The number of spaces a string starts with. *)
Fixpoint leadingSpaces (s : string) : nat :=
  match s with
  | String c rest => if decide (c = " "%char) then S (leadingSpaces rest) else 0
  | EmptyString => 0
  end.

(** [pieces.join(sep)] *)
Fixpoint join (sep : ascii) (pieces : list string) : string :=
  match pieces with
  | [] => EmptyString
  | [piece] => piece
  | piece :: rest => piece +:+ String sep (join sep rest)
  end.

(** The keys of a list of names as a [Map] keeps them: each name once,
    where it comes first. *)
Fixpoint firstOccurrences (names : list string) : list string :=
  match names with
  | [] => []
  | name :: rest =>
      name :: filter (λ other, other ≠ name) (firstOccurrences rest)
  end.

(** What the walk does at a visit, when it started at [depth]. *)
Definition visitAt (chalk : Chalk) (depth : nat) (v : Visit) : Js unit :=
  renderNode chalk (vName v) (vStatus v) (vMessage v) (depth + 2 * vDepth v).

(** How the walk ends. *)
Definition finish (stop : option jsError) : Js unit :=
  match stop with
  | None => mret ()
  | Some e => mthrow e
  end.

(** The line printed at a visit. *)
Definition renderedLine (chalk : Chalk) (depth : nat) (v : Visit) : string :=
  spaces (depth + 2 * vDepth v)
    +:+ nodeLine chalk (vName v) (vStatus v) (vMessage v).

(** The map and the counter after a node named [name] with the
    lower-cased status [status], as a function of what they were. *)
Definition trackStep (name status : string)
    (st : JsMap.t trackValue * nat) : JsMap.t trackValue * nat :=
  match JsMap.get name st.1 with
  | Some (VStr s) =>
      if decide (s = "missing")
      then (JsMap.set name (VArr [s]) st.1, st.2 + 1) else st
  | Some (VArr l) => (JsMap.set name (VArr (l ++ [status])) st.1, st.2)
  | None => st
  end.

Definition trackAll (st : JsMap.t trackValue * nat) (vs : list Visit)
    : JsMap.t trackValue * nat :=
  foldl (λ st v, trackStep (vName v) (toLowerCase (vStatus v)) st) st vs.

Definition setTracking (st : JsMap.t trackValue * nat) (w : World) : World :=
  with_components st.1 (with_unique st.2 w).

(** The lower-cased statuses of the visits of [name], in order. *)
Definition statusesOf (name : string) (vs : list Visit) : list string :=
  (λ v, toLowerCase (vStatus v)) <$> filter (λ v, vName v = name) vs.

(** The lines [report] prints once the tree is rendered, given the map,
    the counter and the elapsed seconds at that time. *)
Definition closingLines (chalk : Chalk) (result : Stats)
    (comps : JsMap.t trackValue) (unique : nat) (elapsed : Z) : list string :=
  (if decide (0 < JsMap.size comps)
   then (String LF (inverse chalk "=== Status ===") +:+ String LF "")
          :: map (statusLine chalk) comps
   else [])
  ++ [String LF (inverse chalk "=== Summary ===") +:+ String LF ""]
  ++ (if decide (0 < JsMap.size comps)
      then [gray chalk "Optimized Components" +:+ ": "
              +:+ pretty unique +:+ "/" +:+ pretty (JsMap.size comps)]
      else [])
  ++ [gray chalk "Optimized Nodes" +:+ ": "
        +:+ pretty (componentsEvaluated result);
      gray chalk "Inlined Nodes" +:+ ": "
        +:+ pretty (inlinedComponents result);
      gray chalk "Optimized Trees" +:+ ": "
        +:+ pretty (optimizedTrees result);
      gray chalk "Compile time" +:+ ": "
        +:+ pretty elapsed +:+ "s" +:+ String LF ""].

(** The map after [names] have been registered in turn. *)
Definition registerAll (names : list string) (m : JsMap.t trackValue)
    : JsMap.t trackValue :=
  foldl (λ m name, JsMap.set name (VStr "missing") m) m names.

(** ** The compiler's run, read without running the script *)

(** The string [errorHandler] returns for a diagnostic. *)
Definition answerOf (diag : Diag) : string :=
  if decide (severity diag = "Information") then "Recover"
  else if decide (severity diag = "Warning") then "Recover"
  else "Fail".

(** The diagnostics the compiler passes to the handler, in order. *)
Fixpoint emitted (run : compilerRun) : list Diag :=
  match run with
  | Report diag k => diag :: emitted (k (answerOf diag))
  | Done _ | Raise _ => []
  end.

(** The messages of the informations among them. *)
Definition echoed (run : compilerRun) : list string :=
  message <$> filter (λ diag, severity diag = "Information") (emitted run).

(** How the run ends. *)
Fixpoint verdict (run : compilerRun) : outcome Serialized :=
  match run with
  | Done result => Returned result
  | Raise e => Thrown e
  | Report diag k => verdict (k (answerOf diag))
  end.

(** ** Sample collaborators and inputs *)

Definition ESC : ascii := "027"%char.

(** [chalk] on a terminal with the basic colours: a string is wrapped
    in the opening and closing codes of its style. *)
Definition ansi (opening closing : string) (s : string) : string :=
  String ESC ("[" +:+ opening +:+ "m") +:+ s
    +:+ String ESC ("[" +:+ closing +:+ "m").

Definition ansiChalk : Chalk :=
  mkChalk (ansi "90" "39") (ansi "32" "39") (ansi "31" "39")
    (ansi "33" "39") (ansi "7" "27") (ansi "1" "22").

(** [chalk] with colours switched off. *)
Definition plainChalk : Chalk := mkChalk id id id id id id.

(** Two nodes named [Foo], inlined then bailed out. *)
Definition fooTwice : evalNode :=
  NArray [NLeaf "Foo" "INLINED" "" (NArray []);
          NLeaf "Foo" "BAIL-OUT" "" (NArray [])].

(** A tree three levels deep, with siblings at every level. *)
Definition nested : evalNode :=
  NArray [NLeaf "App" "ROOT" ""
            (NArray [NLeaf "Foo" "INLINED" ""
                       (NArray [NLeaf "Baz" "NEW_TREE" "" (NArray [])]);
                     NLeaf "Qux" "BAIL-OUT" "no reason" (NArray [])]);
          NLeaf "Other" "ROOT" "" (NArray [])].

(** A node without a [children] property, before a sibling. *)
Definition childless : evalNode :=
  NArray [NLeaf "Foo" "INLINED" "" NAbsent;
          NLeaf "Bar" "INLINED" "" (NArray [])].

Definition statsOf (tree : evalNode) : Stats := mkStats tree 2 1 1.

(** A compiler that reports nothing and returns [tree]. *)
Definition quietCompiler (tree : evalNode) (source : string) : compilerRun :=
  Done (mkSerialized source (statsOf tree)).

(** A compiler that reports an information, a warning and an error, and
    throws once the handler has answered ["Fail"]. *)
Definition failingCompiler (source : string) : compilerRun :=
  Report (mkDiag "Information" "starting") (λ _,
  Report (mkDiag "Warning" "slow path") (λ _,
  Report (mkDiag "FatalError" "boom") (λ answer,
    if decide (answer = "Fail")
    then Raise (CompilerError None (Some "FatalError: boom"))
    else Done (mkSerialized source (statsOf (NArray [])))))).

(** A directory with the input and a components list. *)
Definition withList (list : string) : gmap string string :=
  <[componentsListPath := list]> {[inputPath := "render();"]}.

(** A directory with the input only. *)
Definition withoutList : gmap string string :=
  {[inputPath := "render();"]}.

Definition fooBarList : string := "Foo" +:+ String LF "Bar".

(** The module's state in an empty directory, [Foo] and [Bar] tracked. *)
Definition trackingFooBar : World :=
  with_components [("Foo", VStr "missing"); ("Bar", VStr "missing")]
    (initialWorld ∅ 1000 4500).

(** The same once [Foo] has been met. *)
Definition trackingFooSeen : World :=
  with_components [("Foo", VArr ["missing"]); ("Bar", VStr "missing")]
    (initialWorld ∅ 1000 4500).

(** ** Further readings of the state *)

(** The number of entries of the map that are not ["missing"]: the
    entries that get a check mark in the status section. *)
Definition countSeen (m : JsMap.t trackValue) : nat :=
  length (filter (λ entry, entry.2 ≠ VStr "missing") m).

(** Whether the character [c] occurs in [s]. *)
Fixpoint occursIn (c : ascii) (s : string) : bool :=
  match s with
  | EmptyString => false
  | String c' rest => if decide (c' = c) then true else occursIn c rest
  end.

(** The world once the handler at the end of the promise chain has
    caught [e] in [w] (lines 155-158). *)
Definition failed (e : jsError) (w : World) : World :=
  with_exitCode (Some 1%Z) (with_stderr (stderr w ++ [bestTrace e]) w).

(** A compiler that reports an information and a warning, then returns
    the source behind a comment mark, and [tree]. *)
Definition chattyCompiler (tree : evalNode) (source : string) : compilerRun :=
  Report (mkDiag "Information" "parsing") (λ _,
  Report (mkDiag "Warning" "deprecated call") (λ _,
    Done (mkSerialized ("// " +:+ source) (statsOf tree)))).

(** A tree whose nodes are [Foo], [Baz] under it, and [Foo] again. *)
Definition fooBazFoo : evalNode :=
  NArray [NLeaf "Foo" "INLINED" ""
            (NArray [NLeaf "Baz" "NEW_TREE" "" (NArray [])]);
          NLeaf "Foo" "BAIL-OUT" "" (NArray []);
          NLeaf "Foo" "UNKNOWN_TYPE" "" (NArray [])].

(** * Properties *)

(** ** The string functions on small inputs *)

Example split_empty_text : split LF "" = [""].
Proof. reflexivity. Qed.

Example split_final_line_feed :
  split LF ("Foo" +:+ String LF "Bar" +:+ String LF "") = ["Foo"; "Bar"; ""].
Proof. reflexivity. Qed.

Example split_blank_line :
  split LF ("Foo" +:+ String LF (String LF "Bar")) = ["Foo"; ""; "Bar"].
Proof. reflexivity. Qed.

Example toLowerCase_status : toLowerCase "BAIL-OUT" = "bail-out".
Proof. reflexivity. Qed.

Example padStart_longer : padStart "- App" (5 + 4) = "    - App".
Proof. reflexivity. Qed.

Example padStart_shorter : padStart "- App" 3 = "- App".
Proof. reflexivity. Qed.

Example firstOccurrences_repeated :
  firstOccurrences ["Foo"; "Bar"; "Foo"; ""; "Bar"] = ["Foo"; "Bar"; ""].
Proof. reflexivity. Qed.

Example visits_nested :
  visits nested
  = ([mkVisit 0 "App" "ROOT" ""; mkVisit 1 "Foo" "INLINED" "";
      mkVisit 2 "Baz" "NEW_TREE" ""; mkVisit 1 "Qux" "BAIL-OUT" "no reason";
      mkVisit 0 "Other" "ROOT" ""], None).
Proof. reflexivity. Qed.

Example visits_childless :
  visits childless
  = ([mkVisit 0 "Foo" "INLINED" ""],
     Some (TypeError "Cannot read property 'status' of undefined")).
Proof. reflexivity. Qed.

Example emitted_failingCompiler :
  emitted (failingCompiler "render();")
  = [mkDiag "Information" "starting"; mkDiag "Warning" "slow path";
     mkDiag "FatalError" "boom"]
  ∧ verdict (failingCompiler "render();")
    = Thrown (CompilerError None (Some "FatalError: boom")).
Proof. split; reflexivity. Qed.

(** ** Induction on evaluation trees *)

Lemma evalNode_induction (P : evalNode → Prop) :
  (∀ items, Forall P items → P (NArray items)) →
  (∀ name status message children,
      P children → P (NLeaf name status message children)) →
  P NAbsent →
  (∀ v, P (NScalar v)) →
  ∀ node, P node.
Proof.
  intros Harray Hleaf Habsent Hscalar.
  fix IH 1.
  intros [items | name status message children | | v].
  - apply Harray.
    induction items as [| item items IHitems]; constructor; [apply IH | exact IHitems].
  - apply Hleaf, IH.
  - exact Habsent.
  - apply Hscalar.
Qed.

(** ** Running statements *)

(** Reading a field of an updated world. *)
Ltac world_simpl :=
  cbn [with_files with_stdout with_stderr with_errorsCaptured with_components
       with_unique with_exitCode setTracking
       files stdout stderr errorsCaptured components
       uniqueEvaluatedComponents startTime dateNow exitCode fst snd] in *.

Lemma run_bind {A B} (m : Js A) (f : A → Js B) (w : World) :
  (m ≫= f) w =
  match m w with
  | (Returned a, w') => f a w'
  | (Thrown e, w') => (Thrown e, w')
  end.
Proof. reflexivity. Qed.

Lemma run_bind_returned {A B} (m : Js A) (f : A → Js B) w a w' :
  m w = (Returned a, w') → (m ≫= f) w = f a w'.
Proof. intros Hm. rewrite run_bind, Hm. reflexivity. Qed.

Lemma run_bind_thrown {A B} (m : Js A) (f : A → Js B) w e w' :
  m w = (Thrown e, w') → (m ≫= f) w = (Thrown e, w').
Proof. intros Hm. rewrite run_bind, Hm. reflexivity. Qed.

Lemma forOf_cons {A} (body : A → Js unit) x rest w :
  forOf body (x :: rest) w = (body x ;; forOf body rest) w.
Proof. reflexivity. Qed.

Lemma forOf_app {A} (body : A → Js unit) xs ys w :
  forOf body (xs ++ ys) w = (forOf body xs ;; forOf body ys) w.
Proof.
  revert w. induction xs as [| x xs IH]; intros w; [reflexivity |].
  rewrite <- app_comm_cons, forOf_cons.
  rewrite (run_bind (forOf body (x :: xs))), forOf_cons, !run_bind.
  destruct (body x w) as [[[] | e] w1]; [| reflexivity].
  rewrite IH, run_bind. reflexivity.
Qed.

(** A loop whose body only logs: it logs each item in order. *)
Lemma forOf_console_log {A} (f : A → string) xs w :
  forOf (λ x, console_log (f x)) xs w
  = (Returned (), with_stdout (stdout w ++ map f xs) w).
Proof.
  revert w. induction xs as [| x xs IH]; intros w.
  - destruct w; cbn. rewrite app_nil_r. reflexivity.
  - rewrite forOf_cons, run_bind. cbn [console_log modify].
    rewrite IH. destruct w; cbn. rewrite <- app_assoc. reflexivity.
Qed.

Lemma forOf_console_error {A} (f : A → logged) xs w :
  forOf (λ x, console_error (f x)) xs w
  = (Returned (), with_stderr (stderr w ++ map f xs) w).
Proof.
  revert w. induction xs as [| x xs IH]; intros w.
  - destruct w; cbn. rewrite app_nil_r. reflexivity.
  - rewrite forOf_cons, run_bind. cbn [console_error modify].
    rewrite IH. destruct w; cbn. rewrite <- app_assoc. reflexivity.
Qed.

(** ** The error handler *)

Lemma answerOf_cases diag :
  answerOf diag =
  if decide (severity diag = "Information") then "Recover"
  else if decide (severity diag ≠ "Warning") then "Fail" else "Recover".
Proof.
  unfold answerOf. repeat case_decide; congruence.
Qed.

(** The handler in one equation: the diagnostic is captured, an
    information is echoed, and the answer is [answerOf]. *)
Lemma errorHandler_run diag w :
  errorHandler diag w =
  (Returned (answerOf diag),
   with_stdout
     (stdout w ++ (if decide (severity diag = "Information")
                   then [message diag] else []))
     (with_errorsCaptured (errorsCaptured w ++ [diag]) w)).
Proof.
  rewrite answerOf_cases. unfold errorHandler.
  rewrite run_bind. cbn [modify].
  destruct w as [fs out err cap comps uniq t0 t1 ex]; cbn.
  repeat case_decide; cbn; rewrite ?app_nil_r; reflexivity.
Qed.

(** C2: whatever the diagnostic, the handler first appends it to
    [errorsCaptured]; an [Information] has its message printed and is
    answered ["Recover"], a [Warning] is answered ["Recover"] and
    nothing is printed, any other severity is answered ["Fail"] (and
    nothing is printed either). It never throws and touches nothing
    else. *)
Theorem C2_errorHandler_decision (diag : Diag) (w : World) :
  let captured := with_errorsCaptured (errorsCaptured w ++ [diag]) w in
  errorHandler diag w =
    if decide (severity diag = "Information") then
      (Returned "Recover", with_stdout (stdout w ++ [message diag]) captured)
    else if decide (severity diag = "Warning") then
      (Returned "Recover", captured)
    else
      (Returned "Fail", captured).
Proof.
  cbn zeta. rewrite errorHandler_run. unfold answerOf.
  destruct w as [fs out err cap comps uniq t0 t1 ex]; cbn.
  repeat case_decide; cbn; rewrite ?app_nil_r; reflexivity.
Qed.

(** ** The [components] map *)

Lemma JsMap_get_set_eq {V} k (v : V) m : JsMap.get k (JsMap.set k v m) = Some v.
Proof.
  induction m as [| [k' v'] m IH]; cbn.
  - rewrite decide_True by done. reflexivity.
  - destruct (decide (k = k')) as [-> | Hne]; cbn.
    + rewrite decide_True by done. reflexivity.
    + rewrite decide_False by done. exact IH.
Qed.

Lemma JsMap_get_set_ne {V} k k' (v : V) m :
  k ≠ k' → JsMap.get k' (JsMap.set k v m) = JsMap.get k' m.
Proof.
  intros Hne. induction m as [| [k0 v0] m IH]; cbn.
  - rewrite decide_False by done. reflexivity.
  - destruct (decide (k = k0)) as [-> | Hne0]; cbn.
    + rewrite !decide_False by done. reflexivity.
    + destruct (decide (k' = k0)); [reflexivity | exact IH].
Qed.

(** [set] on a key that is present keeps the keys and their order. *)
Lemma JsMap_keys_set_present {V} k (v v0 : V) m :
  JsMap.get k m = Some v0 → JsMap.keys (JsMap.set k v m) = JsMap.keys m.
Proof.
  unfold JsMap.keys. induction m as [| [k' v'] m IH]; cbn; [done |].
  destruct (decide (k = k')) as [-> | Hne]; cbn; [done |].
  intros Hget. f_equal. exact (IH Hget).
Qed.

(** [set] on a new key puts it last. *)
Lemma JsMap_keys_set_absent {V} k (v : V) m :
  JsMap.get k m = None → JsMap.keys (JsMap.set k v m) = JsMap.keys m ++ [k].
Proof.
  unfold JsMap.keys. induction m as [| [k' v'] m IH]; cbn; [done |].
  destruct (decide (k = k')) as [-> | Hne]; cbn; [done |].
  intros Hget. f_equal. exact (IH Hget).
Qed.

Lemma JsMap_get_None_keys {V} k (m : JsMap.t V) :
  JsMap.get k m = None ↔ k ∉ JsMap.keys m.
Proof.
  unfold JsMap.keys. induction m as [| [k' v'] m IH]; cbn.
  - split; [intros _; apply not_elem_of_nil | done].
  - rewrite not_elem_of_cons.
    destruct (decide (k = k')) as [-> | Hne].
    + split; [discriminate | intros [Hne _]; done].
    + rewrite IH. tauto.
Qed.

(** ** Tracking one node, then many *)

Lemma setTracking_same w :
  setTracking (components w, uniqueEvaluatedComponents w) w = w.
Proof. destruct w; reflexivity. Qed.

Lemma trackComponent_run name status w :
  trackComponent name status w
  = (Returned (),
     setTracking
       (trackStep name status (components w, uniqueEvaluatedComponents w)) w).
Proof.
  unfold trackComponent, trackStep, JsMap.has.
  rewrite run_bind. cbn [gets fst snd].
  destruct (JsMap.get name (components w)) as [[s | l] |] eqn:Hget.
  - rewrite run_bind. cbn [gets]. rewrite Hget.
    destruct (decide (s = "missing")) as [-> | Hne].
    + destruct w; reflexivity.
    + rewrite setTracking_same. reflexivity.
  - rewrite run_bind. cbn [gets]. rewrite Hget. destruct w; reflexivity.
  - rewrite setTracking_same. reflexivity.
Qed.

Lemma trackStep_get_other name status st other :
  other ≠ name →
  JsMap.get other (trackStep name status st).1 = JsMap.get other st.1.
Proof.
  intros Hne. unfold trackStep.
  destruct (JsMap.get name st.1) as [[s | l] |]; [case_decide | |];
    cbn; rewrite ?JsMap_get_set_ne by done; reflexivity.
Qed.

Lemma trackStep_keys name status st :
  JsMap.keys (trackStep name status st).1 = JsMap.keys st.1.
Proof.
  unfold trackStep.
  destruct (JsMap.get name st.1) as [[s | l] |] eqn:Hget; [case_decide | |];
    cbn; try reflexivity; eapply JsMap_keys_set_present; exact Hget.
Qed.

(** After a node named [name], the entry of [name] is not ["missing"]. *)
Lemma trackStep_get_same name status st :
  JsMap.get name (trackStep name status st).1 =
  match JsMap.get name st.1 with
  | Some (VStr s) => if decide (s = "missing") then Some (VArr [s])
                     else Some (VStr s)
  | Some (VArr l) => Some (VArr (l ++ [status]))
  | None => None
  end.
Proof.
  unfold trackStep.
  destruct (JsMap.get name st.1) as [[s | l] |] eqn:Hget; [case_decide | |];
    cbn; rewrite ?JsMap_get_set_eq; done.
Qed.

Lemma trackStep_counter name status st :
  (trackStep name status st).2 =
  st.2 + (if decide (JsMap.get name st.1 = Some (VStr "missing")) then 1 else 0).
Proof.
  unfold trackStep.
  destruct (JsMap.get name st.1) as [[s | l] |] eqn:Hget.
  - destruct (decide (s = "missing")) as [-> | Hne]; cbn.
    + rewrite decide_True by done. reflexivity.
    + rewrite decide_False by congruence. lia.
  - cbn. rewrite decide_False by done. lia.
  - cbn. rewrite decide_False by done. lia.
Qed.

Lemma trackStep_missing_iff name status st other :
  JsMap.get other (trackStep name status st).1 = Some (VStr "missing")
  ↔ JsMap.get other st.1 = Some (VStr "missing") ∧ other ≠ name.
Proof.
  destruct (decide (other = name)) as [-> | Hne].
  - rewrite trackStep_get_same.
    destruct (JsMap.get name st.1) as [[s | l] |]; [case_decide | |];
      (split; [intros Hget | intros [Hget Hne]]; congruence).
  - rewrite trackStep_get_other by done. tauto.
Qed.

Lemma trackAll_cons st v vs :
  trackAll st (v :: vs)
  = trackAll (trackStep (vName v) (toLowerCase (vStatus v)) st) vs.
Proof. reflexivity. Qed.

Lemma trackAll_app st vs vs' :
  trackAll st (vs ++ vs') = trackAll (trackAll st vs) vs'.
Proof. apply foldl_app. Qed.

Lemma trackAll_keys st vs :
  JsMap.keys (trackAll st vs).1 = JsMap.keys st.1.
Proof.
  revert st. induction vs as [| v vs IH]; intros st; [reflexivity |].
  rewrite trackAll_cons, IH. apply trackStep_keys.
Qed.

Lemma trackAll_missing_iff st vs name :
  JsMap.get name (trackAll st vs).1 = Some (VStr "missing")
  ↔ JsMap.get name st.1 = Some (VStr "missing") ∧ name ∉ vName <$> vs.
Proof.
  revert st. induction vs as [| v vs IH]; intros st.
  - cbn. split; [intros ?; split; [done | apply not_elem_of_nil] | tauto].
  - rewrite trackAll_cons, IH, trackStep_missing_iff, fmap_cons, not_elem_of_cons.
    tauto.
Qed.

Lemma trackAll_get_unvisited st vs name :
  name ∉ vName <$> vs →
  JsMap.get name (trackAll st vs).1 = JsMap.get name st.1.
Proof.
  revert st. induction vs as [| v vs IH]; intros st; [reflexivity |].
  rewrite fmap_cons, not_elem_of_cons. intros [Hne Hnot].
  rewrite trackAll_cons, IH by done. apply trackStep_get_other. done.
Qed.

Lemma trackAll_get_array st vs name l :
  JsMap.get name st.1 = Some (VArr l) →
  JsMap.get name (trackAll st vs).1 = Some (VArr (l ++ statusesOf name vs)).
Proof.
  revert st l. induction vs as [| v vs IH]; intros st l Hget.
  - cbn. rewrite app_nil_r. exact Hget.
  - rewrite trackAll_cons. unfold statusesOf. rewrite filter_cons.
    destruct (decide (vName v = name)) as [<- | Hne].
    + rewrite fmap_cons, (IH _ (l ++ [toLowerCase (vStatus v)])).
      * rewrite <- app_assoc. reflexivity.
      * rewrite trackStep_get_same, Hget. reflexivity.
    + apply IH. rewrite trackStep_get_other by done. exact Hget.
Qed.

(** ** The walk *)

Lemma spaces_length n : String.length (spaces n) = n.
Proof. induction n as [| n IH]; cbn; [reflexivity | by rewrite IH]. Qed.

Lemma padStart_indent line depth :
  padStart line (String.length line + depth) = spaces depth +:+ line.
Proof.
  unfold padStart. case_decide as Hle.
  - replace depth with 0 by lia. reflexivity.
  - replace (String.length line + depth - String.length line) with depth by lia.
    reflexivity.
Qed.

Section Walk.

Context (chalk : Chalk).

Lemma renderNode_run name status message depth w :
  renderNode chalk name status message depth w
  = (Returned (),
     let w1 := setTracking
                 (trackStep name (toLowerCase status)
                    (components w, uniqueEvaluatedComponents w)) w in
     with_stdout
       (stdout w1 ++ [spaces depth +:+ nodeLine chalk name status message])
       w1).
Proof.
  unfold renderNode. cbn zeta.
  rewrite run_bind, trackComponent_run, padStart_indent. reflexivity.
Qed.

(** The visits of a list, one after the other: no throw, one line
    each, and the map and the counter follow [trackAll]. *)
Lemma visitAt_all_run depth vs w :
  forOf (visitAt chalk depth) vs w
  = (Returned (),
     with_stdout (stdout w ++ map (renderedLine chalk depth) vs)
       (setTracking
          (trackAll (components w, uniqueEvaluatedComponents w) vs) w)).
Proof.
  revert w. induction vs as [| v vs IH]; intros w.
  - cbn. rewrite app_nil_r. destruct w; reflexivity.
  - rewrite forOf_cons, run_bind. unfold visitAt at 1.
    rewrite renderNode_run. cbn zeta. rewrite IH, trackAll_cons.
    destruct w; world_simpl. fold (renderedLine chalk depth v).
    destruct (trackStep _ _ _) as [comps uniq]. cbn [fst snd map].
    rewrite <- app_assoc. reflexivity.
Qed.

Lemma visitAt_deeper depth v :
  visitAt chalk depth (deeper v) = visitAt chalk (depth + 2) v.
Proof.
  unfold visitAt, deeper. cbn [vDepth vName vStatus vMessage].
  replace (depth + 2 * S (vDepth v)) with (depth + 2 + 2 * vDepth v) by lia.
  reflexivity.
Qed.

Lemma forOf_visitAt_deeper depth vs w :
  forOf (visitAt chalk depth) (map deeper vs) w
  = forOf (visitAt chalk (depth + 2)) vs w.
Proof.
  revert w. induction vs as [| v vs IH]; intros w; [reflexivity |].
  cbn [map]. rewrite !forOf_cons, !run_bind, visitAt_deeper.
  destruct (visitAt chalk (depth + 2) v w) as [[[] | e] w1]; [apply IH | done].
Qed.

(** The walk is its visits in order, then its end. *)
Lemma printReactEvaluationGraph_visits node depth w :
  printReactEvaluationGraph chalk node depth w
  = (forOf (visitAt chalk depth) (visits node).1 ;; finish (visits node).2) w.
Proof.
  revert depth w.
  induction node as [items IH | name status message children IH | | v]
    using evalNode_induction; intros depth w.
  - cbn [printReactEvaluationGraph visits].
    revert w. induction IH as [| item items Hitem _ IHitems]; intros w.
    + reflexivity.
    + rewrite forOf_cons, run_bind, Hitem, run_bind.
      cbn [visitsEach]. fold (visitsEach visits items).
      destruct (visits item) as [vs [e |]]; cbn [fst snd].
      * rewrite run_bind.
        destruct (forOf (visitAt chalk depth) vs w) as [[[] | e'] w1];
          reflexivity.
      * destruct (visitsEach visits items) as [vs' stop] eqn:Hrest.
        cbn [fst snd] in *. rewrite run_bind, forOf_app, run_bind.
        destruct (forOf (visitAt chalk depth) vs w) as [[[] | e'] w1];
          [| reflexivity].
        cbn [finish]. unfold mret at 1, Js_ret at 1.
        rewrite IHitems, run_bind. reflexivity.
  - cbn [printReactEvaluationGraph visits].
    destruct (visits children) as [vs stop] eqn:Hchildren. cbn [fst snd] in *.
    rewrite run_bind, (run_bind (forOf _ _)), forOf_cons, run_bind.
    unfold visitAt at 1. cbn [vName vStatus vMessage vDepth].
    replace (depth + 2 * 0) with depth by lia.
    destruct (renderNode chalk name status message depth w)
      as [[[] | e] w1]; [| reflexivity].
    rewrite IH, run_bind, forOf_visitAt_deeper. reflexivity.
  - reflexivity.
  - reflexivity.
Qed.

(** The walk in one equation. *)
Lemma printReactEvaluationGraph_run node depth w :
  printReactEvaluationGraph chalk node depth w
  = (match (visits node).2 with
     | None => Returned ()
     | Some e => Thrown e
     end,
     with_stdout (stdout w ++ map (renderedLine chalk depth) (visits node).1)
       (setTracking
          (trackAll (components w, uniqueEvaluatedComponents w)
             (visits node).1) w)).
Proof.
  rewrite printReactEvaluationGraph_visits, run_bind, visitAt_all_run.
  destruct (visits node).2; reflexivity.
Qed.

End Walk.

(** ** Well-formed trees *)

Lemma visitsEach_complete items :
  Forall (λ item, (visits item).2 = None
                  ∧ length (visits item).1 = countNodes item) items →
  (visitsEach visits items).2 = None
  ∧ length (visitsEach visits items).1 = list_sum (map countNodes items).
Proof.
  induction 1 as [| item items [Hstop Hlen] _ [IHstop IHlen]]; [done |].
  cbn [visitsEach map list_sum]. fold (visitsEach visits items).
  destruct (visits item) as [vs stop]. cbn [fst snd] in *. subst stop.
  destruct (visitsEach visits items) as [vs' stop']. cbn [fst snd] in *.
  split; [done |]. rewrite length_app. simpl. lia.
Qed.

(** On a well-formed tree the walk meets every node record and does not
    stop early. *)
Lemma visits_wellFormed node :
  wellFormed node = true →
  (visits node).2 = None ∧ length (visits node).1 = countNodes node.
Proof.
  induction node as [items IH | name status message children IH | | v]
    using evalNode_induction; cbn [wellFormed visits countNodes]; try done.
  - intros Hall. apply visitsEach_complete.
    induction IH as [| item items Hitem _ IHitems]; constructor;
      cbn [forallb] in Hall; apply andb_true_iff in Hall as [Hhead Hrest];
      auto.
  - intros Hwf. destruct (IH Hwf) as [Hstop Hlen].
    destruct (visits children) as [vs stop]. cbn [fst snd length] in *.
    rewrite length_map. auto.
Qed.

Lemma visitsEach_stopped items :
  Forall (λ item, wellFormed item = false →
                  ∃ msg, (visits item).2 = Some (TypeError msg)) items →
  forallb wellFormed items = false →
  ∃ msg, (visitsEach visits items).2 = Some (TypeError msg).
Proof.
  induction 1 as [| item items Hitem _ IH]; [done |].
  cbn [forallb visitsEach]. fold (visitsEach visits items).
  destruct (wellFormed item) eqn:Hwf; cbn [andb].
  - intros Hrest. destruct (IH Hrest) as [msg Hmsg].
    apply visits_wellFormed in Hwf as [Hstop _].
    destruct (visits item) as [vs stop]. cbn [fst snd] in *. subst stop.
    destruct (visitsEach visits items) as [vs' stop']. eauto.
  - intros _. destruct Hitem as [msg Hmsg]; [done |].
    destruct (visits item) as [vs stop]. cbn [fst snd] in *. subst stop. eauto.
Qed.

(** On any other tree the walk stops on a [TypeError]. *)
Lemma visits_not_wellFormed node :
  wellFormed node = false → ∃ msg, (visits node).2 = Some (TypeError msg).
Proof.
  induction node as [items IH | name status message children IH | | v]
    using evalNode_induction; cbn [wellFormed visits]; try done.
  - apply visitsEach_stopped, IH.
  - intros Hwf. destruct (IH Hwf) as [msg Hmsg].
    destruct (visits children) as [vs stop]. cbn [fst snd] in *. eauto.
  - eauto.
  - eauto.
Qed.

(** ** Counting first occurrences *)

Lemma firstOccurrences_filter_ne name names :
  firstOccurrences (filter (λ other, other ≠ name) names)
  = filter (λ other, other ≠ name) (firstOccurrences names).
Proof.
  induction names as [| n names IH]; [reflexivity |].
  rewrite filter_cons. cbn [firstOccurrences].
  destruct (decide (n ≠ name)) as [Hne | Heq].
  - cbn [firstOccurrences]. rewrite filter_cons, decide_True by done.
    rewrite IH. f_equal.
    rewrite !list_filter_filter. apply list_filter_iff. tauto.
  - rewrite filter_cons, decide_False by done. rewrite IH.
    apply dec_stable in Heq. subst n.
    rewrite list_filter_filter. apply list_filter_iff. tauto.
Qed.

(** The counter after a list of visits: one more for each name that was
    ["missing"] and is visited, however many times it is. *)
Lemma trackAll_counter st vs :
  (trackAll st vs).2
  = st.2 + length (firstOccurrences
                     (filter (λ name, JsMap.get name st.1 = Some (VStr "missing"))
                        (vName <$> vs))).
Proof.
  revert st. induction vs as [| v vs IH]; intros st; [cbn; lia |].
  rewrite trackAll_cons, IH, trackStep_counter, fmap_cons, filter_cons.
  set (step := trackStep (vName v) (toLowerCase (vStatus v)) st).
  destruct (decide (JsMap.get (vName v) st.1 = Some (VStr "missing")))
    as [Hmissing | Hnot].
  - cbn [firstOccurrences length].
    rewrite <- firstOccurrences_filter_ne, list_filter_filter.
    rewrite (list_filter_iff _
               (λ name, name ≠ vName v
                        ∧ JsMap.get name st.1 = Some (VStr "missing"))).
    + lia.
    + intros name. subst step. rewrite trackStep_missing_iff. tauto.
  - rewrite (list_filter_iff _
               (λ name, JsMap.get name st.1 = Some (VStr "missing"))).
    + lia.
    + intros name. subst step. rewrite trackStep_missing_iff.
      split; [tauto |]. intros Hname. split; [done | congruence].
Qed.

(** ** Indentation *)

Lemma leadingSpaces_spaces n s :
  leadingSpaces (spaces n +:+ s) = n + leadingSpaces s.
Proof.
  induction n as [| n IH]; [reflexivity |].
  change (spaces (S n) +:+ s) with (String " " (spaces n +:+ s)).
  cbn [leadingSpaces]. rewrite decide_True by done. rewrite IH. reflexivity.
Qed.

Lemma leadingSpaces_prefix s t :
  s ≠ "" → leadingSpaces s = 0 → leadingSpaces (s +:+ t) = 0.
Proof.
  destruct s as [| c s]; [done |]. intros _.
  change (String c s +:+ t) with (String c (s +:+ t)).
  cbn [leadingSpaces]. case_decide; [done | reflexivity].
Qed.

Section Renderer.

Context (chalk : Chalk).

(** When the dash marker does not start with a space, neither does
    the line of a node. *)
Lemma nodeLine_leadingSpaces name status message :
  gray chalk "-" ≠ "" → leadingSpaces (gray chalk "-") = 0 →
  leadingSpaces (nodeLine chalk name status message) = 0.
Proof.
  intros Hne Hzero. unfold nodeLine. cbn zeta.
  repeat case_decide; apply leadingSpaces_prefix; assumption.
Qed.

(** C7: the walk started at depth 0 prints, for each node record it
    meets and in document order, the line of the node behind exactly
    [2 * d] spaces, where [d] is the number of node records above the
    node, whatever the arrays around it hold.  With a dash marker
    that does not itself start with a space (as with [chalk], coloured
    or not), the printed line starts with exactly [2 * d] spaces. *)
Theorem C7_indentation_twice_depth (node : evalNode) (w : World) :
  gray chalk "-" ≠ "" →
  leadingSpaces (gray chalk "-") = 0 →
  let printed v :=
    spaces (2 * vDepth v)
      +:+ nodeLine chalk (vName v) (vStatus v) (vMessage v) in
  stdout (printReactEvaluationGraph chalk node 0 w).2
    = stdout w ++ map printed (visits node).1
  ∧ ∀ v, leadingSpaces (printed v) = 2 * vDepth v.
Proof.
  intros Hne Hzero printed. split.
  - rewrite printReactEvaluationGraph_run. world_simpl. reflexivity.
  - intros v. unfold printed.
    rewrite leadingSpaces_spaces, nodeLine_leadingSpaces by assumption. lia.
Qed.

(** C10, as the code has it: on a tree whose every place holds an
    array or a node record the walk returns normally, having printed
    one line for each node record of the tree; on any other tree it
    throws a [TypeError] (at the first place, in document order, that
    holds something else). *)
Theorem C10_walk_returns_iff_wellFormed (node : evalNode) (depth : nat)
    (w : World) :
  (wellFormed node = true →
     (printReactEvaluationGraph chalk node depth w).1 = Returned ()
     ∧ length (stdout (printReactEvaluationGraph chalk node depth w).2)
       = length (stdout w) + countNodes node)
  ∧ (wellFormed node = false →
       ∃ msg, (printReactEvaluationGraph chalk node depth w).1
              = Thrown (TypeError msg)).
Proof.
  rewrite printReactEvaluationGraph_run. cbn [fst snd]. split.
  - intros Hwf. apply visits_wellFormed in Hwf as [Hstop Hlen].
    rewrite Hstop. split; [reflexivity |].
    world_simpl. rewrite length_app, length_map, Hlen. reflexivity.
  - intros Hwf. apply visits_not_wellFormed in Hwf as [msg Hstop].
    rewrite Hstop. eauto.
Qed.

(** C4: an entry that holds an array (what an entry becomes when it
    stops being ["missing"]) is not ["missing"] after any walk from
    any state, thrown or not: it holds the same array followed by the
    lower-cased statuses of the nodes of that name the walk met, in
    order. *)
Theorem C4_never_back_to_missing (node : evalNode) (depth : nat) (w : World)
    (name : string) (seen : list string) :
  JsMap.get name (components w) = Some (VArr seen) →
  let w' := (printReactEvaluationGraph chalk node depth w).2 in
  JsMap.get name (components w')
    = Some (VArr (seen ++ statusesOf name (visits node).1))
  ∧ JsMap.get name (components w') ≠ Some (VStr "missing").
Proof.
  intros Hget w'. subst w'. rewrite printReactEvaluationGraph_run.
  world_simpl. rewrite (trackAll_get_array _ _ _ seen) by exact Hget.
  split; [reflexivity | discriminate].
Qed.

(** C3: the walk is its visits in order.  From any state, the visit of
    a node increments [uniqueEvaluatedComponents] (by one) exactly
    when the entry of its name was ["missing"] when the walk started
    and no earlier visit had that name; so over the walk the counter
    grows by the number of distinct such names met. *)
Theorem C3_counter_once_per_name (node : evalNode) (depth : nat) (w : World) :
  let initiallyMissing name :=
    JsMap.get name (components w) = Some (VStr "missing") in
  (printReactEvaluationGraph chalk node depth w).2
    = (forOf (visitAt chalk depth) (visits node).1 w).2
  ∧ (∀ pre v post,
       (visits node).1 = pre ++ v :: post →
       let before := (forOf (visitAt chalk depth) pre w).2 in
       let after := (visitAt chalk depth v before).2 in
       uniqueEvaluatedComponents after
       = uniqueEvaluatedComponents before
         + (if decide (initiallyMissing (vName v)
                       ∧ vName v ∉ vName <$> pre) then 1 else 0))
  ∧ uniqueEvaluatedComponents (printReactEvaluationGraph chalk node depth w).2
    = uniqueEvaluatedComponents w
      + length (firstOccurrences
                  (filter initiallyMissing (vName <$> (visits node).1))).
Proof.
  intros initiallyMissing. split; [| split].
  - rewrite printReactEvaluationGraph_run, visitAt_all_run. reflexivity.
  - intros pre v post _ before after. subst before after.
    unfold visitAt at 1. rewrite renderNode_run, visitAt_all_run.
    world_simpl. rewrite trackStep_counter.
    destruct (trackAll _ pre) as [comps uniq] eqn:Hpre. cbn [fst snd].
    f_equal. apply decide_ext.
    replace comps with (trackAll (components w, uniqueEvaluatedComponents w) pre).1
      by (rewrite Hpre; reflexivity).
    apply trackAll_missing_iff.
  - rewrite printReactEvaluationGraph_run. world_simpl.
    apply trackAll_counter.
Qed.

End Renderer.

(** ** The compiler at work *)

Lemma echoed_report diag k :
  echoed (Report diag k)
  = (if decide (severity diag = "Information") then [message diag] else [])
    ++ echoed (k (answerOf diag)).
Proof.
  unfold echoed. cbn [emitted]. rewrite filter_cons.
  case_decide; reflexivity.
Qed.

(** The compiler's run in one equation: its diagnostics are captured in
    order, the informations are echoed, and it ends on its verdict. *)
Lemma runCompiler_run run w :
  runCompiler run w
  = (verdict run,
     with_stdout (stdout w ++ echoed run)
       (with_errorsCaptured (errorsCaptured w ++ emitted run) w)).
Proof.
  revert w. induction run as [result | e | diag k IH]; intros w.
  - cbn [runCompiler verdict emitted]. unfold echoed. cbn.
    rewrite !app_nil_r. destruct w; reflexivity.
  - cbn [runCompiler verdict emitted]. unfold echoed. cbn.
    rewrite !app_nil_r. destruct w; reflexivity.
  - cbn [runCompiler verdict emitted]. rewrite run_bind, errorHandler_run, IH.
    rewrite echoed_report. destruct w; world_simpl.
    rewrite <- !app_assoc. reflexivity.
Qed.

Section Compile.

Context (prepackSources : string → compilerRun).

Lemma compileSource_run source w :
  compileSource prepackSources source w
  = let run := prepackSources source in
    let compiled :=
      with_stdout (stdout w ++ echoed run)
        (with_errorsCaptured (errorsCaptured w ++ emitted run) w) in
    match verdict run with
    | Returned serialized =>
        (Returned (reactStatistics serialized, code serialized), compiled)
    | Thrown e =>
        (Thrown e,
         with_stderr
           (stderr w ++ map LDiag (errorsCaptured w ++ emitted run))
           compiled)
    end.
Proof.
  unfold compileSource. cbn zeta. rewrite run_bind. unfold tryCatch.
  rewrite runCompiler_run.
  destruct (verdict (prepackSources source)) as [serialized | e];
    [reflexivity |].
  rewrite run_bind. cbn [gets]. rewrite run_bind, forOf_console_error.
  destruct w; reflexivity.
Qed.

Lemma compileFile_run w :
  compileFile prepackSources w
  = match files w !! inputPath with
    | None => (Thrown (FsError "ENOENT" inputPath), w)
    | Some source =>
        match compileSource prepackSources source w with
        | (Returned (stats, code), w1) =>
            (Returned stats,
             with_files (<[outputPath := code]> (files w1)) w1)
        | (Thrown e, w1) => (Thrown e, w1)
        end
    end.
Proof.
  unfold compileFile. rewrite run_bind. unfold readFileAsync.
  destruct (files w !! inputPath) as [source |]; [| reflexivity].
  rewrite run_bind.
  destruct (compileSource prepackSources source w)
    as [[[stats code] | e] w1]; reflexivity.
Qed.

End Compile.

(** ** The components list *)

Lemma split_nonempty sep text : split sep text ≠ [].
Proof.
  destruct text as [| c text]; cbn [split]; [done |].
  destruct (decide (c = sep)); [done |]. destruct (split sep text); done.
Qed.

(** A text that ends with a line feed has an empty last piece. *)
Lemma split_trailing_LF text :
  split LF (text +:+ String LF "") = split LF text ++ [""].
Proof.
  induction text as [| c text IH]; [reflexivity |].
  change (String c text +:+ String LF "")
    with (String c (text +:+ String LF "")).
  cbn [split]. rewrite IH. pose proof (split_nonempty LF text) as Hne.
  destruct (decide (c = LF)); [reflexivity |].
  destruct (split LF text); [done | reflexivity].
Qed.

(** Joining the pieces gives the text back. *)
Lemma join_split sep text : join sep (split sep text) = text.
Proof.
  induction text as [| c text IH]; [reflexivity |].
  cbn [split]. pose proof (split_nonempty sep text) as Hne.
  destruct (decide (c = sep)) as [-> | Hc].
  - destruct (split sep text) as [| piece pieces]; [done |].
    cbn [join String.append] in *. change ("" +:+ ?s) with s.
    rewrite IH. reflexivity.
  - destruct (split sep text) as [| piece pieces]; [done |].
    destruct pieces as [| piece' pieces]; cbn [join] in *;
      rewrite <- IH; reflexivity.
Qed.

Lemma registerAll_snoc names name m :
  registerAll (names ++ [name]) m
  = JsMap.set name (VStr "missing") (registerAll names m).
Proof. unfold registerAll. rewrite foldl_app. reflexivity. Qed.

Lemma registerAll_get names m name :
  name ∈ names → JsMap.get name (registerAll names m) = Some (VStr "missing").
Proof.
  induction names as [| last names IH] using rev_ind.
  - intros Hin. by apply elem_of_nil in Hin.
  - rewrite registerAll_snoc, elem_of_app, list_elem_of_singleton.
    destruct (decide (last = name)) as [-> | Hne].
    + intros _. apply JsMap_get_set_eq.
    + intros [Hin | ->]; [| done].
      rewrite JsMap_get_set_ne by done. exact (IH Hin).
Qed.

Lemma readComponentsList_run w :
  readComponentsList w
  = (Returned (),
     match files w !! componentsListPath with
     | Some text =>
         with_components (registerAll (split LF text) (components w)) w
     | None => w
     end).
Proof.
  unfold readComponentsList, existsSync. rewrite run_bind. cbn [gets].
  destruct (files w !! componentsListPath) as [text |] eqn:Hfile.
  - rewrite bool_decide_eq_true_2 by eauto.
    rewrite run_bind. unfold readFileAsync. rewrite Hfile. cbn zeta.
    generalize (split LF text) as names. clear Hfile. revert w.
    intros w names. revert w.
    induction names as [| name names IH]; intros w.
    + destruct w; reflexivity.
    + rewrite forOf_cons, run_bind. cbn [modify]. rewrite IH.
      destruct w; reflexivity.
  - rewrite bool_decide_eq_false_2; [reflexivity |].
    intros [text Htext]. discriminate.
Qed.

(** ** The report *)

Section Report.

Context (chalk : Chalk).

(** The report in one equation. *)
Lemma report_run result w :
  report chalk result w
  = let vs := (visits (evaluatedRootNodes result)).1 in
    let st := trackAll (components w, uniqueEvaluatedComponents w) vs in
    let opening :=
      [String LF (inverse chalk "=== Compilation Complete ===")
         +:+ String LF "";
       bold chalk "Evaluated Tree:"]
      ++ map (renderedLine chalk 0) vs in
    match (visits (evaluatedRootNodes result)).2 with
    | Some e =>
        (Thrown e, with_stdout (stdout w ++ opening) (setTracking st w))
    | None =>
        (Returned (),
         with_stdout
           (stdout w ++ opening
              ++ closingLines chalk result st.1 st.2
                   ((dateNow w - startTime w) `div` 1000)%Z)
           (setTracking st w))
    end.
Proof.
  unfold report. cbn zeta.
  do 2 (rewrite run_bind; cbn [console_log modify]).
  rewrite run_bind, printReactEvaluationGraph_run.
  destruct (visits (evaluatedRootNodes result)) as [vs [e |]]; cbn [fst snd].
  - destruct w; world_simpl. rewrite <- !app_assoc. reflexivity.
  - destruct (trackAll _ vs) as [comps uniq] eqn:Htrack.
    destruct w as [fs out err cap comps0 uniq0 t0 t1 ex]. world_simpl.
    rewrite run_bind. cbn [gets]. world_simpl. unfold closingLines.
    destruct (decide (0 < JsMap.size comps)) as [Hsome | Hnone].
    + rewrite run_bind, run_bind. cbn [console_log modify].
      rewrite run_bind. cbn [gets]. world_simpl.
      rewrite forOf_console_log. world_simpl.
      do 1 (rewrite run_bind; cbn [console_log modify]). world_simpl.
      rewrite run_bind. cbn [gets]. world_simpl.
      rewrite decide_True by exact Hsome.
      rewrite run_bind, run_bind. cbn [gets]. world_simpl.
      cbn [console_log modify]. world_simpl.
      do 3 (rewrite run_bind; cbn [console_log modify]; world_simpl).
      rewrite run_bind. cbn [gets]. world_simpl.
      unfold console_log, modify. world_simpl.
      rewrite <- !app_assoc. reflexivity.
    + rewrite run_bind. cbn [mret Js_ret].
      do 1 (rewrite run_bind; cbn [console_log modify]). world_simpl.
      rewrite run_bind. cbn [gets]. world_simpl.
      rewrite decide_False by exact Hnone.
      rewrite run_bind. cbn [mret Js_ret].
      do 3 (rewrite run_bind; cbn [console_log modify]; world_simpl).
      rewrite run_bind. cbn [gets]. world_simpl.
      unfold console_log, modify. world_simpl.
      rewrite <- !app_assoc. reflexivity.
Qed.

End Report.

(** ** Registering names *)

Lemma filter_keeps_all {A} (P : A → Prop) `{!∀ x, Decision (P x)} (l : list A) :
  (∀ x, P x) → filter P l = l.
Proof.
  intros Hall. induction l as [| x l IH]; [reflexivity |].
  rewrite filter_cons, decide_True by apply Hall. rewrite IH. reflexivity.
Qed.

Lemma JsMap_set_same {V} k (v : V) m :
  JsMap.get k m = Some v → JsMap.set k v m = m.
Proof.
  induction m as [| [k' v'] m IH]; cbn; [done |].
  destruct (decide (k = k')) as [-> | Hne]; [congruence |].
  intros Hget. rewrite IH by done. reflexivity.
Qed.

Lemma JsMap_set_absent {V} k (v : V) m :
  k ∉ JsMap.keys m → JsMap.set k v m = m ++ [(k, v)].
Proof.
  unfold JsMap.keys. induction m as [| [k' v'] m IH]; cbn; [done |].
  rewrite not_elem_of_cons. intros [Hne Hnot].
  rewrite decide_False by done. rewrite IH by done. reflexivity.
Qed.

Lemma JsMap_get_elem {V} k (v : V) m : JsMap.get k m = Some v → (k, v) ∈ m.
Proof.
  induction m as [| [k' v'] m IH]; cbn; [done |].
  destruct (decide (k = k')) as [-> | Hne].
  - intros [= ->]. apply list_elem_of_here.
  - intros Hget. apply list_elem_of_further, IH, Hget.
Qed.

Lemma JsMap_get_all {V} k (v : V) m :
  (∀ entry, entry ∈ m → entry.2 = v) → k ∈ JsMap.keys m →
  JsMap.get k m = Some v.
Proof.
  intros Hall Hin.
  destruct (JsMap.get k m) as [v' |] eqn:Hget.
  - apply JsMap_get_elem, Hall in Hget. cbn in Hget. congruence.
  - apply JsMap_get_None_keys in Hget. done.
Qed.

(** Registering names in a map whose entries are all ["missing"] adds
    the new names at the end, each once, in the order in which they
    first come. *)
Lemma registerAll_order names m :
  (∀ entry, entry ∈ m → entry.2 = VStr "missing") →
  registerAll names m
  = m ++ ((λ name, (name, VStr "missing"))
            <$> filter (λ name, name ∉ JsMap.keys m) (firstOccurrences names)).
Proof.
  revert m. induction names as [| name names IH]; intros m Hall.
  - cbn. rewrite app_nil_r. reflexivity.
  - change (registerAll (name :: names) m)
      with (registerAll names (JsMap.set name (VStr "missing") m)).
    cbn [firstOccurrences]. rewrite filter_cons.
    destruct (decide (name ∉ JsMap.keys m)) as [Hnew | Hold].
    + rewrite JsMap_set_absent by done. rewrite IH.
      * rewrite <- app_assoc, fmap_cons. cbn [app]. do 3 f_equal.
        rewrite list_filter_filter. apply list_filter_iff. intros other.
        unfold JsMap.keys. rewrite fmap_app, not_elem_of_app. cbn.
        rewrite list_elem_of_singleton. tauto.
      * intros entry. rewrite elem_of_app, list_elem_of_singleton.
        intros [Hin | ->]; [apply Hall, Hin | reflexivity].
    + apply dec_stable in Hold.
      rewrite JsMap_set_same by (apply JsMap_get_all; assumption).
      rewrite IH by exact Hall. do 2 f_equal.
      rewrite list_filter_filter. apply list_filter_iff. intros other.
      split; [| tauto]. intros Hother. split; [done | congruence].
Qed.

(** C9: when the list file is there, loading it does not throw, and
    every piece of its text between line feeds is then a key of
    [components] with the value ["missing"]: in particular the empty
    piece after a final line feed.  Loaded into the empty map, the keys
    are exactly the pieces, each once, in the order in which they first
    come; and the pieces joined by line feeds are the text. *)
Theorem C9_list_names_registered (w : World) (text : string) :
  files w !! componentsListPath = Some text →
  let loaded := (readComponentsList w).2 in
  (readComponentsList w).1 = Returned ()
  ∧ join LF (split LF text) = text
  ∧ (∀ name, name ∈ split LF text →
       JsMap.get name (components loaded) = Some (VStr "missing"))
  ∧ (∀ lines, text = lines +:+ String LF "" →
       JsMap.get "" (components loaded) = Some (VStr "missing"))
  ∧ (components w = JsMap.empty →
       components loaded
       = (λ name, (name, VStr "missing")) <$> firstOccurrences (split LF text)).
Proof.
  intros Hfile loaded. subst loaded.
  rewrite readComponentsList_run, Hfile. world_simpl.
  split; [reflexivity |]. split; [apply join_split |].
  split; [| split].
  - intros name Hin. apply registerAll_get, Hin.
  - intros lines ->. apply registerAll_get.
    rewrite split_trailing_LF, elem_of_app, list_elem_of_singleton. tauto.
  - intros ->. rewrite registerAll_order.
    + cbn [app JsMap.empty]. f_equal. apply filter_keeps_all.
      intros name. apply not_elem_of_nil.
    + intros entry Hin. by apply elem_of_nil in Hin.
Qed.

(** ** The whole script *)

Lemma statusLine_cases chalk entry :
  statusLine chalk entry
  = if decide (entry.2 = VStr "missing")
    then red chalk "✖" +:+ " " +:+ entry.1
    else green chalk "✔" +:+ " " +:+ entry.1.
Proof.
  destruct entry as [name [s | l]]; cbn [statusLine isMissing fst snd].
  - destruct (decide (s = "missing")) as [-> | Hne].
    + rewrite bool_decide_eq_true_2, decide_True by done. reflexivity.
    + rewrite bool_decide_eq_false_2, decide_False by congruence. reflexivity.
  - rewrite decide_False by done. reflexivity.
Qed.

Section Pipeline.

Context (chalk : Chalk) (prepackSources : string → compilerRun).

(** The compiler leaves [components] alone. *)
Lemma compileFile_components w :
  components (compileFile prepackSources w).2 = components w.
Proof.
  rewrite compileFile_run.
  destruct (files w !! inputPath) as [source |]; [| reflexivity].
  rewrite compileSource_run. cbn zeta.
  destruct (verdict (prepackSources source)); reflexivity.
Qed.

(** C5: with no list file, loading the list changes nothing and does
    not throw; [components], empty when the script starts, is still
    empty after the compilation and after the report; and the report
    prints the two opening lines, the tree, and then the summary
    banner, the three counters and the time, without any status line
    or ["Optimized Components"] line (and nothing after the tree when
    the walk throws). *)
Theorem C5_absent_list_is_skipped (fs : gmap string string) (t0 t1 : Z) :
  fs !! componentsListPath = None →
  let w0 := initialWorld fs t0 t1 in
  readComponentsList w0 = (Returned (), w0)
  ∧ components w0 = JsMap.empty
  ∧ components (compileFile prepackSources w0).2 = JsMap.empty
  ∧ ∀ result w,
      components w = JsMap.empty →
      components (report chalk result w).2 = JsMap.empty
      ∧ stdout (report chalk result w).2
        = stdout w
          ++ [String LF (inverse chalk "=== Compilation Complete ===")
                +:+ String LF "";
              bold chalk "Evaluated Tree:"]
          ++ map (renderedLine chalk 0) (visits (evaluatedRootNodes result)).1
          ++ match (visits (evaluatedRootNodes result)).2 with
             | Some _ => []
             | None =>
                 [String LF (inverse chalk "=== Summary ===") +:+ String LF "";
                  gray chalk "Optimized Nodes" +:+ ": "
                    +:+ pretty (componentsEvaluated result);
                  gray chalk "Inlined Nodes" +:+ ": "
                    +:+ pretty (inlinedComponents result);
                  gray chalk "Optimized Trees" +:+ ": "
                    +:+ pretty (optimizedTrees result);
                  gray chalk "Compile time" +:+ ": "
                    +:+ pretty ((dateNow w - startTime w) `div` 1000)%Z
                    +:+ "s" +:+ String LF ""]
             end.
Proof.
  intros Hfile w0. subst w0. split; [| split; [| split]].
  - rewrite readComponentsList_run. cbn [initialWorld files].
    rewrite Hfile. reflexivity.
  - reflexivity.
  - apply compileFile_components.
  - intros result w Hempty. rewrite report_run. cbn zeta.
    assert (Hkeys : ∀ vs,
              (trackAll (components w, uniqueEvaluatedComponents w) vs).1
              = JsMap.empty).
    { intros vs. pose proof (trackAll_keys
                               (components w, uniqueEvaluatedComponents w) vs)
        as Hk.
      cbn [fst] in Hk. rewrite Hempty in Hk |- *.
      by apply fmap_nil_inv in Hk. }
    destruct (visits (evaluatedRootNodes result)) as [vs [e |]];
      cbn [fst snd]; world_simpl; rewrite Hkeys.
    + split; [reflexivity |]. rewrite ?app_nil_r, <- ?app_assoc. reflexivity.
    + split; [reflexivity |]. unfold closingLines.
      rewrite !decide_False by (cbn; lia).
      rewrite <- !app_assoc. reflexivity.
Qed.

(** C8: when [components] is not empty and the walk returns, the
    report prints, after the tree, the status banner, then one line
    for each entry of the map as the walk left it, in the order of the
    map (which is the order it had before the walk): a cross and the
    name when the value is ["missing"], a check mark and the name
    otherwise; then the summary banner and
    ["Optimized Components: U/T"] with [U] the counter and [T] the
    number of entries; then the three counters and the time.  A name
    that was ["missing"] and that the walk did not meet is still
    ["missing"], so its line has the cross. *)
Theorem C8_summary_lines (result : Stats) (w : World) :
  components w ≠ JsMap.empty →
  (visits (evaluatedRootNodes result)).2 = None →
  let rendered :=
    (printReactEvaluationGraph chalk (evaluatedRootNodes result) 0 w).2 in
  let mark (entry : string * trackValue) :=
    if decide (entry.2 = VStr "missing")
    then red chalk "✖" +:+ " " +:+ entry.1
    else green chalk "✔" +:+ " " +:+ entry.1 in
  stdout (report chalk result w).2
    = stdout w
      ++ [String LF (inverse chalk "=== Compilation Complete ===")
            +:+ String LF "";
          bold chalk "Evaluated Tree:"]
      ++ map (renderedLine chalk 0) (visits (evaluatedRootNodes result)).1
      ++ [String LF (inverse chalk "=== Status ===") +:+ String LF ""]
      ++ map mark (components rendered)
      ++ [String LF (inverse chalk "=== Summary ===") +:+ String LF "";
          gray chalk "Optimized Components" +:+ ": "
            +:+ pretty (uniqueEvaluatedComponents rendered) +:+ "/"
            +:+ pretty (length (components rendered));
          gray chalk "Optimized Nodes" +:+ ": "
            +:+ pretty (componentsEvaluated result);
          gray chalk "Inlined Nodes" +:+ ": "
            +:+ pretty (inlinedComponents result);
          gray chalk "Optimized Trees" +:+ ": "
            +:+ pretty (optimizedTrees result);
          gray chalk "Compile time" +:+ ": "
            +:+ pretty ((dateNow w - startTime w) `div` 1000)%Z
            +:+ "s" +:+ String LF ""]
  ∧ JsMap.keys (components rendered) = JsMap.keys (components w)
  ∧ ∀ name,
      JsMap.get name (components w) = Some (VStr "missing") →
      name ∉ vName <$> (visits (evaluatedRootNodes result)).1 →
      (name, VStr "missing") ∈ components rendered
      ∧ mark (name, VStr "missing") = red chalk "✖" +:+ " " +:+ name.
Proof.
  intros Hsome Hstop rendered mark. subst rendered.
  rewrite report_run, printReactEvaluationGraph_run, Hstop. cbn zeta.
  world_simpl.
  set (st := trackAll (components w, uniqueEvaluatedComponents w)
               (visits (evaluatedRootNodes result)).1).
  pose proof (trackAll_keys (components w, uniqueEvaluatedComponents w)
                (visits (evaluatedRootNodes result)).1) as Hkeys.
  fold st in Hkeys. cbn [fst] in Hkeys.
  split; [| split].
  - unfold closingLines.
    assert (0 < JsMap.size st.1) as Hsize.
    { unfold JsMap.size. rewrite <- (length_fmap fst). fold (JsMap.keys st.1).
      rewrite Hkeys. unfold JsMap.keys. rewrite length_fmap.
      destruct (components w); [done | cbn; lia]. }
    rewrite !decide_True by exact Hsize.
    rewrite (map_ext (statusLine chalk) mark) by apply statusLine_cases.
    unfold JsMap.size. cbn [app]. rewrite <- ?app_assoc. reflexivity.
  - exact Hkeys.
  - intros name Hmissing Hunmet. split.
    + apply JsMap_get_elem. subst st.
      rewrite trackAll_get_unvisited by exact Hunmet. exact Hmissing.
    + unfold mark. cbn [fst snd]. rewrite decide_True by done. reflexivity.
Qed.

(** C6: when the input is there and the compiler invocation throws
    [e], [compileSource] prints every captured diagnostic on the error
    stream, in the order of capture, and rethrows [e]; the captured
    diagnostics are all those the compiler passed to the handler, the
    one answered ["Fail"] included.  The script then prints the trace
    of [e] on the error stream and exits with code 1. *)
Theorem C6_failure_dumps_diagnostics (fs : gmap string string) (t0 t1 : Z)
    (source : string) (e : jsError) :
  fs !! inputPath = Some source →
  let loaded := (readComponentsList (initialWorld fs t0 t1)).2 in
  (runCompiler (prepackSources source) loaded).1 = Thrown e →
  let compiled := (runCompiler (prepackSources source) loaded).2 in
  let final := (main chalk prepackSources (initialWorld fs t0 t1)).2 in
  errorsCaptured compiled = emitted (prepackSources source)
  ∧ compileSource prepackSources source loaded
    = (Thrown e,
       with_stderr (map LDiag (errorsCaptured compiled)) compiled)
  ∧ stderr final = map LDiag (errorsCaptured compiled) ++ [bestTrace e]
  ∧ exitCode final = Some 1%Z.
Proof.
  intros Hinput loaded Hthrows compiled final.
  subst compiled final. rewrite runCompiler_run in *. cbn [fst snd] in *.
  assert (Hloaded : errorsCaptured loaded = [] ∧ stderr loaded = []
                    ∧ files loaded = fs).
  { subst loaded. rewrite readComponentsList_run. cbn [snd].
    destruct (files _ !! componentsListPath); done. }
  destruct Hloaded as (Hcap & Herr & Hfiles).
  world_simpl. rewrite Hcap. cbn [app].
  split; [reflexivity |]. split; [| split].
  - rewrite compileSource_run. cbn zeta. rewrite Hthrows, Hcap, Herr.
    reflexivity.
  - unfold main, tryCatch. rewrite run_bind.
    rewrite (surjective_pairing (readComponentsList _)).
    rewrite readComponentsList_run at 1. cbn [fst]. fold loaded.
    rewrite run_bind, compileFile_run, Hfiles, Hinput, compileSource_run.
    cbn zeta. rewrite Hthrows, Hcap, Herr.
    rewrite run_bind. reflexivity.
  - unfold main, tryCatch. rewrite run_bind.
    rewrite (surjective_pairing (readComponentsList _)).
    rewrite readComponentsList_run at 1. cbn [fst]. fold loaded.
    rewrite run_bind, compileFile_run, Hfiles, Hinput, compileSource_run.
    cbn zeta. rewrite Hthrows.
    rewrite run_bind. reflexivity.
Qed.

End Pipeline.

(** ** The first status of a tracked component *)

(** The first node of a name whose entry is ["missing"] leaves the
    one-element array [["missing"]] in the entry: the array holds the
    old value of the entry, not the status of the node. *)
Lemma first_visit_stores_missing chalk name status message depth w :
  JsMap.get name (components w) = Some (VStr "missing") →
  JsMap.get name (components (renderNode chalk name status message depth w).2)
  = Some (VArr ["missing"]).
Proof.
  intros Hget. rewrite renderNode_run. cbn zeta. world_simpl.
  rewrite trackStep_get_same. cbn [fst]. rewrite Hget.
  rewrite decide_True by done. reflexivity.
Qed.

(** C1, on the code: with the list [Foo], [Bar] and a tree of two nodes
    named [Foo], inlined then bailed out, the script ends with
    [["missing"; "bail-out"]] for [Foo] (not [["inlined"; "bail-out"]]:
    the status of the first node is not recorded), ["missing"] for
    [Bar], and the counter at 1. *)
Theorem C1_first_status_is_lost (chalk : Chalk) (t0 t1 : Z) :
  let final := (main chalk (quietCompiler fooTwice)
                  (initialWorld (withList fooBarList) t0 t1)).2 in
  components final
    = [("Foo", VArr ["missing"; "bail-out"]); ("Bar", VStr "missing")]
  ∧ JsMap.get "Foo" (components final) ≠ Some (VArr ["inlined"; "bail-out"])
  ∧ JsMap.get "Bar" (components final) = Some (VStr "missing")
  ∧ uniqueEvaluatedComponents final = 1.
Proof.
  vm_compute. repeat split; discriminate.
Qed.

(** ** The properties at work on the samples *)

Lemma C3_counter_once_per_name_witness :
  (visits fooTwice).1
    = [mkVisit 0 "Foo" "INLINED" ""] ++ mkVisit 0 "Foo" "BAIL-OUT" "" :: []
  ∧ uniqueEvaluatedComponents trackingFooBar = 0
  ∧ uniqueEvaluatedComponents
      (visitAt plainChalk 0 (mkVisit 0 "Foo" "INLINED" "") trackingFooBar).2 = 1
  ∧ uniqueEvaluatedComponents
      (printReactEvaluationGraph plainChalk fooTwice 0 trackingFooBar).2 = 1.
Proof.
  destruct (C3_counter_once_per_name plainChalk fooTwice 0 trackingFooBar)
    as (_ & Hstep & Htotal).
  split; [reflexivity |]. split; [reflexivity |]. split.
  - etrans.
    + exact (Hstep [] (mkVisit 0 "Foo" "INLINED" "")
               [mkVisit 0 "Foo" "BAIL-OUT" ""] eq_refl).
    + vm_compute. reflexivity.
  - rewrite Htotal. vm_compute. reflexivity.
Defined.

Lemma C4_never_back_to_missing_witness :
  JsMap.get "Foo" (components trackingFooSeen) = Some (VArr ["missing"])
  ∧ JsMap.get "Foo"
      (components
         (printReactEvaluationGraph plainChalk fooTwice 0 trackingFooSeen).2)
    = Some (VArr ["missing"; "inlined"; "bail-out"]).
Proof.
  split; [reflexivity |].
  destruct (C4_never_back_to_missing plainChalk fooTwice 0 trackingFooSeen
              "Foo" ["missing"] eq_refl) as [Hget _].
  rewrite Hget. vm_compute. reflexivity.
Defined.

Lemma C5_absent_list_is_skipped_witness :
  withoutList !! componentsListPath = None
  ∧ components (initialWorld withoutList 1000 4500) = JsMap.empty
  ∧ readComponentsList (initialWorld withoutList 1000 4500)
    = (Returned (), initialWorld withoutList 1000 4500)
  ∧ stdout (report plainChalk (statsOf nested)
              (initialWorld withoutList 1000 4500)).2
    = [String LF "=== Compilation Complete ===" +:+ String LF "";
       "Evaluated Tree:";
       "- App (root)";
       "  - Foo (inlined)";
       "    - Baz (new_tree)";
       "  - Qux (bail-out: no reason)";
       "- Other (root)";
       String LF "=== Summary ===" +:+ String LF "";
       "Optimized Nodes: 2";
       "Inlined Nodes: 1";
       "Optimized Trees: 1";
       "Compile time: 3s" +:+ String LF ""].
Proof.
  assert (Habsent : withoutList !! componentsListPath = None)
    by (vm_compute; reflexivity).
  destruct (C5_absent_list_is_skipped plainChalk (quietCompiler nested)
              withoutList 1000 4500 Habsent) as (Hload & Hempty & _ & Hreport).
  split; [exact Habsent |]. split; [exact Hempty |]. split; [exact Hload |].
  destruct (Hreport (statsOf nested) (initialWorld withoutList 1000 4500)
              eq_refl) as [_ Hout].
  rewrite Hout. vm_compute. reflexivity.
Defined.

Lemma C6_failure_dumps_diagnostics_witness :
  withList fooBarList !! inputPath = Some "render();"
  ∧ (runCompiler (failingCompiler "render();")
       (readComponentsList (initialWorld (withList fooBarList) 1000 4500)).2).1
    = Thrown (CompilerError None (Some "FatalError: boom"))
  ∧ stderr (main plainChalk failingCompiler
              (initialWorld (withList fooBarList) 1000 4500)).2
    = [LDiag (mkDiag "Information" "starting");
       LDiag (mkDiag "Warning" "slow path");
       LDiag (mkDiag "FatalError" "boom");
       LText "FatalError: boom"]
  ∧ exitCode (main plainChalk failingCompiler
                (initialWorld (withList fooBarList) 1000 4500)).2
    = Some 1%Z.
Proof.
  assert (Hinput : withList fooBarList !! inputPath = Some "render();")
    by (vm_compute; reflexivity).
  assert (Hthrows :
            (runCompiler (failingCompiler "render();")
               (readComponentsList
                  (initialWorld (withList fooBarList) 1000 4500)).2).1
            = Thrown (CompilerError None (Some "FatalError: boom")))
    by (vm_compute; reflexivity).
  destruct (C6_failure_dumps_diagnostics plainChalk failingCompiler
              (withList fooBarList) 1000 4500 "render();"
              (CompilerError None (Some "FatalError: boom")) Hinput Hthrows)
    as (Hcaptured & _ & Herr & Hexit).
  split; [exact Hinput |]. split; [exact Hthrows |]. split; [| exact Hexit].
  rewrite Herr, Hcaptured. vm_compute. reflexivity.
Defined.

Lemma C7_indentation_twice_depth_witness :
  gray ansiChalk "-" ≠ ""
  ∧ leadingSpaces (gray ansiChalk "-") = 0
  ∧ map leadingSpaces
      (stdout (printReactEvaluationGraph ansiChalk nested 0
                 (initialWorld ∅ 1000 4500)).2)
    = [0; 2; 4; 2; 0].
Proof.
  assert (Hne : gray ansiChalk "-" ≠ "") by discriminate.
  assert (Hzero : leadingSpaces (gray ansiChalk "-") = 0)
    by (vm_compute; reflexivity).
  destruct (C7_indentation_twice_depth ansiChalk nested
              (initialWorld ∅ 1000 4500) Hne Hzero) as [Hout Hlead].
  split; [exact Hne |]. split; [exact Hzero |].
  rewrite Hout. cbn [initialWorld stdout app]. rewrite map_map.
  rewrite (map_ext _ (λ v, 2 * vDepth v)) by exact Hlead.
  vm_compute. reflexivity.
Defined.

Lemma C8_summary_lines_witness :
  components trackingFooBar ≠ JsMap.empty
  ∧ (visits (evaluatedRootNodes (statsOf fooTwice))).2 = None
  ∧ stdout (report plainChalk (statsOf fooTwice) trackingFooBar).2
    = [String LF "=== Compilation Complete ===" +:+ String LF "";
       "Evaluated Tree:";
       "- Foo (inlined)";
       "- Foo (bail-out)";
       String LF "=== Status ===" +:+ String LF "";
       "✔ Foo";
       "✖ Bar";
       String LF "=== Summary ===" +:+ String LF "";
       "Optimized Components: 1/2";
       "Optimized Nodes: 2";
       "Inlined Nodes: 1";
       "Optimized Trees: 1";
       "Compile time: 3s" +:+ String LF ""].
Proof.
  assert (Hsome : components trackingFooBar ≠ JsMap.empty) by discriminate.
  assert (Hstop : (visits (evaluatedRootNodes (statsOf fooTwice))).2 = None)
    by reflexivity.
  destruct (C8_summary_lines plainChalk (statsOf fooTwice) trackingFooBar
              Hsome Hstop) as (Hout & _ & _).
  split; [exact Hsome |]. split; [exact Hstop |].
  rewrite Hout. vm_compute. reflexivity.
Defined.

Lemma C9_list_names_registered_witness :
  files (initialWorld (withList (fooBarList +:+ String LF "")) 1000 4500)
    !! componentsListPath
  = Some (fooBarList +:+ String LF "")
  ∧ (readComponentsList
       (initialWorld (withList (fooBarList +:+ String LF "")) 1000 4500)).1
    = Returned ()
  ∧ components
      (readComponentsList
         (initialWorld (withList (fooBarList +:+ String LF "")) 1000 4500)).2
    = [("Foo", VStr "missing"); ("Bar", VStr "missing"); ("", VStr "missing")].
Proof.
  assert (Hfile :
            files (initialWorld (withList (fooBarList +:+ String LF ""))
                     1000 4500) !! componentsListPath
            = Some (fooBarList +:+ String LF ""))
    by (vm_compute; reflexivity).
  destruct (C9_list_names_registered _ _ Hfile)
    as (Hreturns & _ & _ & _ & Horder).
  split; [exact Hfile |]. split; [exact Hreturns |].
  rewrite Horder by reflexivity. vm_compute. reflexivity.
Defined.

Lemma C10_walk_returns_iff_wellFormed_witness :
  wellFormed nested = true
  ∧ (printReactEvaluationGraph plainChalk nested 0
       (initialWorld ∅ 1000 4500)).1 = Returned ()
  ∧ length (stdout (printReactEvaluationGraph plainChalk nested 0
                      (initialWorld ∅ 1000 4500)).2) = 5.
Proof.
  destruct (C10_walk_returns_iff_wellFormed plainChalk nested 0
              (initialWorld ∅ 1000 4500)) as [Hreturns _].
  destruct (Hreturns eq_refl) as [Hok Hlines].
  split; [reflexivity |]. split; [exact Hok |].
  rewrite Hlines. reflexivity.
Defined.

(** The claim C10 as the specification has it fails on a node without
    [children]: the walk prints the node, throws a [TypeError] when it
    goes into the absent children, and never reaches the sibling. *)
Lemma C10_absent_children_throws :
  wellFormed childless = false
  ∧ (printReactEvaluationGraph plainChalk childless 0
       (initialWorld ∅ 1000 4500)).1
    = Thrown (TypeError "Cannot read property 'status' of undefined")
  ∧ (printReactEvaluationGraph plainChalk childless 0
       (initialWorld ∅ 1000 4500)).1 ≠ Returned ()
  ∧ stdout (printReactEvaluationGraph plainChalk childless 0
              (initialWorld ∅ 1000 4500)).2 = ["- Foo (inlined)"].
Proof.
  vm_compute. repeat split; discriminate.
Qed.

(** * Further properties *)

(** ** The promise chain in one equation *)

Lemma readComponentsList_returns w : (readComponentsList w).1 = Returned ().
Proof. rewrite readComponentsList_run. reflexivity. Qed.

(** Loading the list changes [components] only. *)
Lemma readComponentsList_frame w :
  let loaded := (readComponentsList w).2 in
  files loaded = files w ∧ stdout loaded = stdout w
  ∧ stderr loaded = stderr w ∧ errorsCaptured loaded = errorsCaptured w
  ∧ uniqueEvaluatedComponents loaded = uniqueEvaluatedComponents w
  ∧ startTime loaded = startTime w ∧ dateNow loaded = dateNow w
  ∧ exitCode loaded = exitCode w.
Proof.
  cbn zeta. rewrite readComponentsList_run. cbn [snd].
  destruct (files w !! componentsListPath); repeat split; reflexivity.
Qed.

Section Chain.

Context (chalk : Chalk) (prepackSources : string → compilerRun).

Lemma main_run w :
  main chalk prepackSources w
  = (Returned (),
     let loaded := (readComponentsList w).2 in
     match files loaded !! inputPath with
     | None => failed (FsError "ENOENT" inputPath) loaded
     | Some source =>
         let run := prepackSources source in
         let compiled :=
           with_stdout (stdout loaded ++ echoed run)
             (with_errorsCaptured (errorsCaptured loaded ++ emitted run)
                loaded) in
         match verdict run with
         | Thrown e =>
             failed e
               (with_stderr
                  (stderr loaded
                     ++ map LDiag (errorsCaptured loaded ++ emitted run))
                  compiled)
         | Returned serialized =>
             let written :=
               with_files (<[outputPath := code serialized]> (files compiled))
                 compiled in
             match (report chalk (reactStatistics serialized) written).1 with
             | Returned _ =>
                 (report chalk (reactStatistics serialized) written).2
             | Thrown e =>
                 failed e (report chalk (reactStatistics serialized) written).2
             end
         end
     end).
Proof.
  unfold main, tryCatch. rewrite run_bind.
  pose proof (readComponentsList_returns w) as Hreturns.
  destruct (readComponentsList w) as [outcome loaded].
  cbn [fst snd] in *. subst outcome. cbn zeta.
  rewrite run_bind, compileFile_run.
  destruct (files loaded !! inputPath) as [source |]; [| reflexivity].
  rewrite compileSource_run. cbn zeta.
  destruct (verdict (prepackSources source)) as [serialized | e];
    [| reflexivity].
  destruct (report chalk (reactStatistics serialized) _) as [[[] | e] w1];
    reflexivity.
Qed.

End Chain.

(** ** Compiling: the input, the output and the console *)

Section Compilation.

Context (chalk : Chalk) (prepackSources : string → compilerRun).

(** Without [fb-www/input.js] the script stops before the compiler is
    called: the rejection of the read is the only thing printed, on the
    error stream; nothing is written to the directory; the exit code
    is 1. *)
Theorem missing_input_exits (fs : gmap string string) (t0 t1 : Z) :
  fs !! inputPath = None →
  let final := (main chalk prepackSources (initialWorld fs t0 t1)).2 in
  exitCode final = Some 1%Z
  ∧ stderr final = [LStack (FsError "ENOENT" inputPath)]
  ∧ stdout final = []
  ∧ errorsCaptured final = []
  ∧ files final = fs.
Proof.
  intros Hinput final. subst final. rewrite main_run. cbn [snd].
  destruct (readComponentsList_frame (initialWorld fs t0 t1))
    as (Hfiles & Hout & Herr & Hcap & _).
  rewrite Hfiles. cbn [initialWorld files] in *. rewrite Hinput.
  unfold failed. world_simpl. rewrite Hfiles, Hout, Herr, Hcap.
  repeat split; reflexivity.
Qed.

(** When the input is there and the compiler returns, [compileFile]
    returns the statistics of the compiler as they are, and the
    directory differs by one file: [fb-www/output.js] holds the code of
    the compiler as it is; the input is still there. *)
Theorem compileFile_writes_code (w : World) (source : string)
    (serialized : Serialized) :
  files w !! inputPath = Some source →
  (runCompiler (prepackSources source) w).1 = Returned serialized →
  let compiled := compileFile prepackSources w in
  compiled.1 = Returned (reactStatistics serialized)
  ∧ files compiled.2 !! outputPath = Some (code serialized)
  ∧ files compiled.2 !! inputPath = Some source
  ∧ ∀ path, path ≠ outputPath → files compiled.2 !! path = files w !! path.
Proof.
  intros Hinput Hreturns compiled. subst compiled.
  rewrite runCompiler_run in Hreturns. cbn [fst] in Hreturns.
  rewrite compileFile_run, Hinput, compileSource_run. cbn zeta.
  rewrite Hreturns. cbn [fst snd]. world_simpl.
  split; [reflexivity |]. split; [apply lookup_insert_eq |].
  split.
  - rewrite lookup_insert_ne by discriminate. exact Hinput.
  - intros path Hpath. apply lookup_insert_ne. congruence.
Qed.

(** Whenever [compileFile] throws (no input, or a compiler that
    throws), the directory is as it was: no output is written, and an
    output of an earlier run is not overwritten. *)
Theorem compileFile_failure_writes_nothing (w : World) (e : jsError) :
  (compileFile prepackSources w).1 = Thrown e →
  files (compileFile prepackSources w).2 = files w
  ∧ stdout w `prefix_of` stdout (compileFile prepackSources w).2
  ∧ components (compileFile prepackSources w).2 = components w
  ∧ exitCode (compileFile prepackSources w).2 = exitCode w.
Proof.
  rewrite compileFile_run.
  destruct (files w !! inputPath) as [source |].
  - rewrite compileSource_run. cbn zeta.
    destruct (verdict (prepackSources source)) as [serialized | e'];
      [discriminate |].
    intros _. cbn [snd]. world_simpl.
    repeat split; try reflexivity. apply prefix_app_r. reflexivity.
  - intros _. repeat split; reflexivity.
Qed.

(** When the compiler returns, [compileSource] prints nothing on the
    error stream: the diagnostics are captured, in order, but only the
    messages of the informations are printed, in order, on the output
    stream; warnings are not printed anywhere. *)
Theorem compileSource_success_is_quiet (w : World) (source : string)
    (serialized : Serialized) :
  (runCompiler (prepackSources source) w).1 = Returned serialized →
  let compiled := compileSource prepackSources source w in
  compiled.1 = Returned (reactStatistics serialized, code serialized)
  ∧ stderr compiled.2 = stderr w
  ∧ stdout compiled.2
    = stdout w
      ++ (message <$> filter (λ diag, severity diag = "Information")
                        (emitted (prepackSources source)))
  ∧ errorsCaptured compiled.2
    = errorsCaptured w ++ emitted (prepackSources source).
Proof.
  intros Hreturns compiled. subst compiled.
  rewrite runCompiler_run in Hreturns. cbn [fst] in Hreturns.
  rewrite compileSource_run. cbn zeta. rewrite Hreturns.
  repeat split; reflexivity.
Qed.

End Compilation.

(** ** The script from start to end *)

Section WholeScript.

Context (chalk : Chalk) (prepackSources : string → compilerRun).


(** The state in which the compiler is called. *)
Lemma loaded_initial fs t0 t1 :
  let loaded := (readComponentsList (initialWorld fs t0 t1)).2 in
  files loaded = fs ∧ stdout loaded = [] ∧ stderr loaded = []
  ∧ errorsCaptured loaded = [] ∧ uniqueEvaluatedComponents loaded = 0
  ∧ startTime loaded = t0 ∧ dateNow loaded = t1 ∧ exitCode loaded = None.
Proof. apply (readComponentsList_frame (initialWorld fs t0 t1)). Qed.


End WholeScript.

Section Outcomes.

Context (chalk : Chalk) (prepackSources : string → compilerRun).

(** The whole output of a run that succeeds: first the messages of the
    informations of the compiler, then the two opening lines, the tree,
    and the closing lines computed from the map and the counter as the
    walk leaves them and from the whole seconds between the two
    readings of the clock.  The directory differs by the output file,
    and the error stream is empty. *)
Theorem script_success_output (fs : gmap string string) (t0 t1 : Z)
    (source : string) (serialized : Serialized) :
  let loaded := (readComponentsList (initialWorld fs t0 t1)).2 in
  let stats := reactStatistics serialized in
  let rendered :=
    (printReactEvaluationGraph chalk (evaluatedRootNodes stats) 0 loaded).2 in
  let final := (main chalk prepackSources (initialWorld fs t0 t1)).2 in
  fs !! inputPath = Some source →
  (runCompiler (prepackSources source) loaded).1 = Returned serialized →
  wellFormed (evaluatedRootNodes stats) = true →
  stdout final
    = (message <$> filter (λ diag, severity diag = "Information")
                     (emitted (prepackSources source)))
      ++ [String LF (inverse chalk "=== Compilation Complete ===")
            +:+ String LF "";
          bold chalk "Evaluated Tree:"]
      ++ map (renderedLine chalk 0) (visits (evaluatedRootNodes stats)).1
      ++ closingLines chalk stats (components rendered)
           (uniqueEvaluatedComponents rendered) ((t1 - t0) `div` 1000)%Z
  ∧ stderr final = []
  ∧ exitCode final = None
  ∧ files final = <[outputPath := code serialized]> fs.
Proof.
  intros loaded stats rendered final Hinput Hreturns Hwf.
  subst final rendered. rewrite runCompiler_run in Hreturns.
  cbn [fst] in Hreturns. rewrite main_run. cbn [snd]. cbn zeta. fold loaded.
  destruct (loaded_initial fs t0 t1)
    as (Hfiles & Hout & Herr & Hcap & Huniq & Hstart & Hnow & Hexit).
  fold loaded in Hfiles, Hout, Herr, Hcap, Huniq, Hstart, Hnow, Hexit.
  rewrite Hfiles, Hinput, Hreturns. fold stats.
  apply visits_wellFormed in Hwf as [Hstop _].
  rewrite report_run, printReactEvaluationGraph_run. cbn zeta.
  rewrite Hstop. cbn [fst snd]. world_simpl.
  rewrite Hfiles, Hout, Herr, Hexit, Hstart, Hnow. cbn [app].
  unfold echoed. rewrite <- ?app_assoc. repeat split; reflexivity.
Qed.

(** The output file is written before the tree is printed: when the
    compiler returns a tree with a place that holds neither an array nor
    a node record, the code is in [fb-www/output.js] all the same; the
    output stream stops after the line of the last node met, without
    status or summary; the [TypeError] is alone on the error stream,
    and the exit code is 1. *)
Theorem script_fails_after_writing (fs : gmap string string) (t0 t1 : Z)
    (source : string) (serialized : Serialized) :
  let loaded := (readComponentsList (initialWorld fs t0 t1)).2 in
  let stats := reactStatistics serialized in
  let final := (main chalk prepackSources (initialWorld fs t0 t1)).2 in
  fs !! inputPath = Some source →
  (runCompiler (prepackSources source) loaded).1 = Returned serialized →
  wellFormed (evaluatedRootNodes stats) = false →
  files final !! outputPath = Some (code serialized)
  ∧ exitCode final = Some 1%Z
  ∧ (∃ msg, stderr final = [LStack (TypeError msg)])
  ∧ stdout final
    = (message <$> filter (λ diag, severity diag = "Information")
                     (emitted (prepackSources source)))
      ++ [String LF (inverse chalk "=== Compilation Complete ===")
            +:+ String LF "";
          bold chalk "Evaluated Tree:"]
      ++ map (renderedLine chalk 0) (visits (evaluatedRootNodes stats)).1.
Proof.
  intros loaded stats final Hinput Hreturns Hwf.
  subst final. rewrite runCompiler_run in Hreturns.
  cbn [fst] in Hreturns. rewrite main_run. cbn [snd]. cbn zeta. fold loaded.
  destruct (loaded_initial fs t0 t1)
    as (Hfiles & Hout & Herr & Hcap & Huniq & Hstart & Hnow & Hexit).
  fold loaded in Hfiles, Hout, Herr, Hcap, Huniq, Hstart, Hnow, Hexit.
  rewrite Hfiles, Hinput, Hreturns. fold stats.
  apply visits_not_wellFormed in Hwf as [msg Hstop].
  rewrite report_run. cbn zeta. rewrite Hstop. cbn [fst snd].
  unfold failed. world_simpl. rewrite Hout, Herr. cbn [app].
  split; [apply lookup_insert_eq |]. split; [reflexivity |].
  split; [exists msg; reflexivity |].
  unfold echoed. rewrite <- ?app_assoc. reflexivity.
Qed.

End Outcomes.

(** ** More on the walk *)

Lemma countSeen_cons entry m :
  countSeen (entry :: m)
  = (if decide (entry.2 ≠ VStr "missing") then 1 else 0) + countSeen m.
Proof.
  unfold countSeen.
  rewrite (filter_cons (λ e : string * trackValue, e.2 ≠ VStr "missing")).
  case_decide; reflexivity.
Qed.

Lemma countSeen_set name old new m :
  JsMap.get name m = Some old →
  countSeen (JsMap.set name new m)
    + (if decide (old ≠ VStr "missing") then 1 else 0)
  = countSeen m + (if decide (new ≠ VStr "missing") then 1 else 0).
Proof.
  induction m as [| [k v] m IH]; cbn [JsMap.get JsMap.set]; [done |].
  destruct (decide (name = k)) as [-> | Hne].
  - intros [= ->]. rewrite !countSeen_cons. cbn [snd]. lia.
  - intros Hget. rewrite !countSeen_cons. cbn [snd].
    specialize (IH Hget). lia.
Qed.

Lemma countSeen_le_size m : countSeen m ≤ JsMap.size m.
Proof. apply length_filter. Qed.

Lemma countSeen_all_missing m :
  (∀ entry, entry ∈ m → entry.2 = VStr "missing") → countSeen m = 0.
Proof.
  induction m as [| entry m IH]; intros Hall; [reflexivity |].
  rewrite countSeen_cons, decide_False.
  - apply IH. intros other Hin. apply Hall. by apply list_elem_of_further.
  - intros Hne. apply Hne, Hall, list_elem_of_here.
Qed.

(** A node moves the counter as it moves the number of entries that
    are not ["missing"]. *)
Lemma trackStep_countSeen name status st :
  (trackStep name status st).2 + countSeen st.1
  = st.2 + countSeen (trackStep name status st).1.
Proof.
  unfold trackStep.
  destruct (JsMap.get name st.1) as [[s | l] |] eqn:Hget; [| | reflexivity].
  - destruct (decide (s = "missing")) as [-> | Hne]; [| reflexivity].
    cbn [fst snd].
    pose proof (countSeen_set name _ (VArr ["missing"]) _ Hget) as Hset.
    rewrite decide_False in Hset by (intros Hneq; by apply Hneq).
    rewrite decide_True in Hset by done. lia.
  - cbn [fst snd].
    pose proof (countSeen_set name _ (VArr (l ++ [status])) _ Hget) as Hset.
    rewrite !decide_True in Hset by done. lia.
Qed.

Lemma trackAll_countSeen st vs :
  (trackAll st vs).2 + countSeen st.1 = st.2 + countSeen (trackAll st vs).1.
Proof.
  revert st. induction vs as [| v vs IH]; intros st; [reflexivity |].
  rewrite trackAll_cons.
  pose proof (IH (trackStep (vName v) (toLowerCase (vStatus v)) st)) as Hrest.
  pose proof (trackStep_countSeen (vName v) (toLowerCase (vStatus v)) st)
    as Hstep.
  lia.
Qed.

Lemma trackAll_counter_grows st vs : st.2 ≤ (trackAll st vs).2.
Proof. rewrite trackAll_counter. lia. Qed.

Lemma trackAll_size st vs : JsMap.size (trackAll st vs).1 = JsMap.size st.1.
Proof.
  unfold JsMap.size. rewrite <- !(length_fmap fst).
  change (length (JsMap.keys (trackAll st vs).1) = length (JsMap.keys st.1)).
  rewrite trackAll_keys. reflexivity.
Qed.

Lemma registerAll_all_missing names m :
  (∀ entry, entry ∈ m → entry.2 = VStr "missing") →
  ∀ entry, entry ∈ registerAll names m → entry.2 = VStr "missing".
Proof.
  intros Hall entry. rewrite registerAll_order by exact Hall.
  rewrite elem_of_app, list_elem_of_fmap.
  intros [Hin | (name & -> & _)]; [apply Hall, Hin | reflexivity].
Qed.

(** Once the list is loaded, every entry is ["missing"]. *)
Lemma loaded_all_missing fs t0 t1 :
  ∀ entry,
    entry ∈ components (readComponentsList (initialWorld fs t0 t1)).2 →
    entry.2 = VStr "missing".
Proof.
  rewrite readComponentsList_run. cbn [snd initialWorld files].
  destruct (fs !! componentsListPath) as [text |]; world_simpl.
  - apply registerAll_all_missing. intros entry Hin.
    by apply elem_of_nil in Hin.
  - intros entry Hin. by apply elem_of_nil in Hin.
Qed.

(** The value of a name that is ["missing"], after a list of visits:
    untouched when the name is not visited; otherwise ["missing"]
    followed by the statuses of its visits but the first. *)
Lemma trackAll_get_missing st vs name :
  JsMap.get name st.1 = Some (VStr "missing") →
  JsMap.get name (trackAll st vs).1
  = if decide (name ∈ vName <$> vs)
    then Some (VArr ("missing" :: drop 1 (statusesOf name vs)))
    else Some (VStr "missing").
Proof.
  revert st. induction vs as [| v vs IH]; intros st Hget.
  - cbn. rewrite decide_False by apply not_elem_of_nil. exact Hget.
  - rewrite trackAll_cons, fmap_cons. unfold statusesOf.
    rewrite filter_cons.
    destruct (decide (vName v = name)) as [<- | Hne].
    + rewrite decide_True by apply list_elem_of_here.
      rewrite fmap_cons. cbn [drop].
      rewrite (trackAll_get_array _ _ _ ["missing"]); [reflexivity |].
      rewrite trackStep_get_same, Hget. rewrite decide_True by done.
      reflexivity.
    + rewrite IH by (rewrite trackStep_get_other by done; exact Hget).
      apply decide_ext. rewrite elem_of_cons. split; [tauto |].
      intros [Heq | Hin]; [congruence | exact Hin].
Qed.

Lemma trackAll_untracked st vs :
  Forall (λ v, JsMap.get (vName v) st.1 = None) vs → trackAll st vs = st.
Proof.
  induction 1 as [| v vs Hnone _ IH]; [reflexivity |].
  rewrite trackAll_cons. unfold trackStep at 1. rewrite Hnone. exact IH.
Qed.

Section WalkProperties.

Context (chalk : Chalk).

(** In a run of the script the counter is the number of entries that
    are not ["missing"], whatever the tree and whether or not the walk
    throws: the [U] of ["Optimized Components: U/T"] is the number of
    check marks, and it is at most [T], which the walk does not
    change. *)
Theorem counter_counts_check_marks (fs : gmap string string) (t0 t1 : Z)
    (node : evalNode) (depth : nat) :
  let loaded := (readComponentsList (initialWorld fs t0 t1)).2 in
  let rendered := (printReactEvaluationGraph chalk node depth loaded).2 in
  uniqueEvaluatedComponents rendered = countSeen (components rendered)
  ∧ uniqueEvaluatedComponents rendered ≤ JsMap.size (components rendered)
  ∧ JsMap.size (components rendered) = JsMap.size (components loaded).
Proof.
  intros loaded rendered. subst rendered.
  rewrite printReactEvaluationGraph_run. world_simpl.
  set (st := (components loaded, uniqueEvaluatedComponents loaded)).
  pose proof (trackAll_countSeen st (visits node).1) as Hinv.
  pose proof (countSeen_le_size (trackAll st (visits node).1).1) as Hle.
  pose proof (trackAll_size st (visits node).1) as Hsize.
  destruct (loaded_initial fs t0 t1) as (_ & _ & _ & _ & Huniq & _).
  pose proof (countSeen_all_missing _ (loaded_all_missing fs t0 t1)) as Hzero.
  fold loaded in Huniq, Hzero. subst st. cbn [fst snd] in *.
  repeat split; [lia | lia | exact Hsize].
Qed.

(** What the walk leaves in the entry of a name that is ["missing"]
    when it starts: ["missing"] still when no node met has that name;
    otherwise the array of ["missing"] followed by the lower-cased
    statuses of the nodes of that name met, the first of them left
    out. *)
Theorem tracked_value_after_walk (node : evalNode) (depth : nat) (w : World)
    (name : string) :
  JsMap.get name (components w) = Some (VStr "missing") →
  JsMap.get name
    (components (printReactEvaluationGraph chalk node depth w).2)
  = if decide (name ∈ vName <$> (visits node).1)
    then Some (VArr ("missing" :: drop 1 (statusesOf name (visits node).1)))
    else Some (VStr "missing").
Proof.
  intros Hget. rewrite printReactEvaluationGraph_run. world_simpl.
  apply trackAll_get_missing. exact Hget.
Qed.

(** What the walk never does: it leaves the directory, the error
    stream, the captured diagnostics and the exit code alone; it only
    adds lines at the end of the output stream, one for each node met;
    it adds, removes or moves no key of [components]; and the counter
    never goes down. *)
Theorem walk_touches_console_and_tracking_only (node : evalNode)
    (depth : nat) (w : World) :
  let rendered := (printReactEvaluationGraph chalk node depth w).2 in
  files rendered = files w
  ∧ stderr rendered = stderr w
  ∧ errorsCaptured rendered = errorsCaptured w
  ∧ exitCode rendered = exitCode w
  ∧ stdout w `prefix_of` stdout rendered
  ∧ length (stdout rendered) = length (stdout w) + length (visits node).1
  ∧ JsMap.keys (components rendered) = JsMap.keys (components w)
  ∧ uniqueEvaluatedComponents w ≤ uniqueEvaluatedComponents rendered.
Proof.
  intros rendered. subst rendered.
  rewrite printReactEvaluationGraph_run. world_simpl.
  split; [reflexivity |]. split; [reflexivity |]. split; [reflexivity |].
  split; [reflexivity |]. split; [apply prefix_app_r; reflexivity |].
  split; [rewrite length_app, length_map; reflexivity |].
  split; [apply trackAll_keys |].
  apply (trackAll_counter_grows
           (components w, uniqueEvaluatedComponents w)).
Qed.

(** A tree none of whose nodes has a tracked name leaves the map and
    the counter as they are: an untracked name is recorded nowhere. *)
Theorem walk_ignores_untracked_names (node : evalNode) (depth : nat)
    (w : World) :
  Forall (λ v, JsMap.get (vName v) (components w) = None) (visits node).1 →
  components (printReactEvaluationGraph chalk node depth w).2 = components w
  ∧ uniqueEvaluatedComponents (printReactEvaluationGraph chalk node depth w).2
    = uniqueEvaluatedComponents w.
Proof.
  intros Hnone. rewrite printReactEvaluationGraph_run. world_simpl.
  rewrite trackAll_untracked by exact Hnone. split; reflexivity.
Qed.


End WalkProperties.

(** ** More on the components list *)

Lemma firstOccurrences_elem name names :
  name ∈ firstOccurrences names ↔ name ∈ names.
Proof.
  induction names as [| first names IH]; [reflexivity |].
  cbn [firstOccurrences]. rewrite !elem_of_cons, list_elem_of_filter, IH.
  destruct (decide (name = first)); tauto.
Qed.

Lemma firstOccurrences_NoDup names : NoDup (firstOccurrences names).
Proof.
  induction names as [| first names IH]; [constructor |].
  cbn [firstOccurrences]. constructor.
  - rewrite list_elem_of_filter. tauto.
  - apply NoDup_filter, IH.
Qed.

(** No piece holds the separator. *)
Lemma split_pieces_free sep text piece :
  piece ∈ split sep text → occursIn sep piece = false.
Proof.
  revert piece. induction text as [| c text IH]; intros piece; cbn [split].
  - rewrite list_elem_of_singleton. intros ->. reflexivity.
  - pose proof (split_nonempty sep text) as Hne.
    destruct (decide (c = sep)) as [-> | Hc].
    + rewrite elem_of_cons. intros [-> | Hin]; [reflexivity | apply IH, Hin].
    + destruct (split sep text) as [| head pieces]; [done |].
      rewrite elem_of_cons. intros [-> | Hin].
      * cbn [occursIn]. rewrite decide_False by exact Hc.
        apply IH, list_elem_of_here.
      * apply IH, list_elem_of_further, Hin.
Qed.

Lemma loaded_components fs t0 t1 :
  components (readComponentsList (initialWorld fs t0 t1)).2
  = match fs !! componentsListPath with
    | Some text =>
        (λ name, (name, VStr "missing")) <$> firstOccurrences (split LF text)
    | None => []
    end.
Proof.
  rewrite readComponentsList_run. cbn [snd initialWorld files].
  destruct (fs !! componentsListPath) as [text |]; [| reflexivity].
  world_simpl. cbn [initialWorld components]. rewrite registerAll_order.
  - cbn [app JsMap.empty]. f_equal. apply filter_keeps_all.
    intros name. apply not_elem_of_nil.
  - intros entry Hin. by apply elem_of_nil in Hin.
Qed.

(** When the script starts, loading the list makes [components] the map
    of the distinct lines of the list file: no key comes twice (a line
    that is repeated counts once in the [T] of the summary), a name is
    a key exactly when it is a line of the file, and every value is
    ["missing"]. *)
Theorem loaded_keys_are_the_distinct_lines (fs : gmap string string)
    (t0 t1 : Z) :
  let loaded := (readComponentsList (initialWorld fs t0 t1)).2 in
  NoDup (JsMap.keys (components loaded))
  ∧ (∀ name,
       name ∈ JsMap.keys (components loaded)
       ↔ ∃ text, fs !! componentsListPath = Some text ∧ name ∈ split LF text)
  ∧ (∀ name,
       name ∈ JsMap.keys (components loaded) →
       JsMap.get name (components loaded) = Some (VStr "missing"))
  ∧ JsMap.size (components loaded)
    = match fs !! componentsListPath with
      | Some text => length (firstOccurrences (split LF text))
      | None => 0
      end.
Proof.
  intros loaded.
  assert (Hkeys : JsMap.keys (components loaded)
                  = match fs !! componentsListPath with
                    | Some text => firstOccurrences (split LF text)
                    | None => []
                    end).
  { subst loaded. rewrite loaded_components. unfold JsMap.keys.
    destruct (fs !! componentsListPath) as [text |]; [| reflexivity].
    rewrite <- list_fmap_compose. apply list_fmap_id. }
  split; [| split; [| split]].
  - rewrite Hkeys. destruct (fs !! componentsListPath);
      [apply firstOccurrences_NoDup | constructor].
  - intros name. rewrite Hkeys.
    destruct (fs !! componentsListPath) as [text |].
    + rewrite firstOccurrences_elem. split; [eauto |].
      intros (text' & [= <-] & Hin). exact Hin.
    + split; [intros Hin; by apply elem_of_nil in Hin |].
      intros (text' & Hsome & _). discriminate.
  - intros name Hin. apply JsMap_get_all; [| exact Hin].
    apply loaded_all_missing.
  - unfold JsMap.size. rewrite <- (length_fmap fst).
    change ((components loaded).*1) with (JsMap.keys (components loaded)).
    rewrite Hkeys. destruct (fs !! componentsListPath); reflexivity.
Qed.

(** No tracked name holds a line feed: a name of the list that is to
    match a node's name is one line. *)
Theorem loaded_names_have_no_line_feed (fs : gmap string string) (t0 t1 : Z)
    (name : string) :
  name ∈ JsMap.keys (components (readComponentsList (initialWorld fs t0 t1)).2) →
  occursIn LF name = false.
Proof.
  unfold JsMap.keys. rewrite loaded_components.
  destruct (fs !! componentsListPath) as [text |].
  - rewrite <- list_fmap_compose, list_fmap_id, firstOccurrences_elem.
    apply split_pieces_free.
  - intros Hin. by apply elem_of_nil in Hin.
Qed.


(** ** The further properties at work on the samples *)

Lemma missing_input_exits_witness :
  ({[componentsListPath := fooBarList]} : gmap string string) !! inputPath
  = None
  ∧ stderr (main plainChalk (quietCompiler nested)
              (initialWorld {[componentsListPath := fooBarList]} 1000 4500)).2
    = [LStack (FsError "ENOENT" "fb-www/input.js")]
  ∧ exitCode (main plainChalk (quietCompiler nested)
                (initialWorld {[componentsListPath := fooBarList]} 1000 4500)).2
    = Some 1%Z.
Proof.
  assert (Hinput : ({[componentsListPath := fooBarList]}
                      : gmap string string) !! inputPath = None)
    by (vm_compute; reflexivity).
  destruct (missing_input_exits plainChalk (quietCompiler nested)
              {[componentsListPath := fooBarList]} 1000 4500 Hinput)
    as (Hexit & Herr & _).
  split; [exact Hinput |]. split; [exact Herr | exact Hexit].
Defined.

Lemma compileFile_writes_code_witness :
  files (initialWorld (withList fooBarList) 1000 4500) !! inputPath
  = Some "render();"
  ∧ (runCompiler (chattyCompiler nested "render();")
       (initialWorld (withList fooBarList) 1000 4500)).1
    = Returned (mkSerialized "// render();" (statsOf nested))
  ∧ (compileFile (chattyCompiler nested)
       (initialWorld (withList fooBarList) 1000 4500)).1
    = Returned (statsOf nested)
  ∧ files (compileFile (chattyCompiler nested)
             (initialWorld (withList fooBarList) 1000 4500)).2 !! outputPath
    = Some "// render();".
Proof.
  assert (Hinput : files (initialWorld (withList fooBarList) 1000 4500)
                     !! inputPath = Some "render();")
    by (vm_compute; reflexivity).
  assert (Hreturns :
            (runCompiler (chattyCompiler nested "render();")
               (initialWorld (withList fooBarList) 1000 4500)).1
            = Returned (mkSerialized "// render();" (statsOf nested)))
    by (vm_compute; reflexivity).
  destruct (compileFile_writes_code (chattyCompiler nested) _ _ _
              Hinput Hreturns) as (Hstats & Hcode & _).
  split; [exact Hinput |]. split; [exact Hreturns |].
  split; [exact Hstats | exact Hcode].
Defined.

Lemma compileFile_failure_writes_nothing_witness :
  (compileFile failingCompiler
     (initialWorld (withList fooBarList) 1000 4500)).1
  = Thrown (CompilerError None (Some "FatalError: boom"))
  ∧ files (compileFile failingCompiler
             (initialWorld (withList fooBarList) 1000 4500)).2
    = withList fooBarList.
Proof.
  assert (Hthrows :
            (compileFile failingCompiler
               (initialWorld (withList fooBarList) 1000 4500)).1
            = Thrown (CompilerError None (Some "FatalError: boom")))
    by (vm_compute; reflexivity).
  destruct (compileFile_failure_writes_nothing failingCompiler _ _ Hthrows)
    as (Hfiles & _).
  split; [exact Hthrows | exact Hfiles].
Defined.

Lemma compileSource_success_is_quiet_witness :
  (runCompiler (chattyCompiler nested "render();")
     (initialWorld ∅ 1000 4500)).1
  = Returned (mkSerialized "// render();" (statsOf nested))
  ∧ stderr (compileSource (chattyCompiler nested) "render();"
              (initialWorld ∅ 1000 4500)).2 = []
  ∧ stdout (compileSource (chattyCompiler nested) "render();"
              (initialWorld ∅ 1000 4500)).2 = ["parsing"]
  ∧ errorsCaptured (compileSource (chattyCompiler nested) "render();"
                      (initialWorld ∅ 1000 4500)).2
    = [mkDiag "Information" "parsing"; mkDiag "Warning" "deprecated call"].
Proof.
  assert (Hreturns :
            (runCompiler (chattyCompiler nested "render();")
               (initialWorld ∅ 1000 4500)).1
            = Returned (mkSerialized "// render();" (statsOf nested)))
    by (vm_compute; reflexivity).
  destruct (compileSource_success_is_quiet (chattyCompiler nested) _ _ _
              Hreturns) as (_ & Herr & Hout & Hcap).
  split; [exact Hreturns |]. split; [exact Herr |].
  split; [rewrite Hout | rewrite Hcap]; vm_compute; reflexivity.
Defined.


Lemma script_success_output_witness :
  withList fooBarList !! inputPath = Some "render();"
  ∧ (runCompiler (chattyCompiler fooBazFoo "render();")
       (readComponentsList (initialWorld (withList fooBarList) 1000 4500)).2).1
    = Returned (mkSerialized "// render();" (statsOf fooBazFoo))
  ∧ wellFormed fooBazFoo = true
  ∧ stdout (main plainChalk (chattyCompiler fooBazFoo)
              (initialWorld (withList fooBarList) 1000 4500)).2
    = ["parsing";
       String LF "=== Compilation Complete ===" +:+ String LF "";
       "Evaluated Tree:";
       "- Foo (inlined)";
       "  - Baz (new_tree)";
       "- Foo (bail-out)";
       "- Foo (unknown_type)";
       String LF "=== Status ===" +:+ String LF "";
       "✔ Foo";
       "✖ Bar";
       String LF "=== Summary ===" +:+ String LF "";
       "Optimized Components: 1/2";
       "Optimized Nodes: 2";
       "Inlined Nodes: 1";
       "Optimized Trees: 1";
       "Compile time: 3s" +:+ String LF ""]
  ∧ files (main plainChalk (chattyCompiler fooBazFoo)
             (initialWorld (withList fooBarList) 1000 4500)).2 !! outputPath
    = Some "// render();".
Proof.
  assert (Hinput : withList fooBarList !! inputPath = Some "render();")
    by (vm_compute; reflexivity).
  assert (Hreturns :
            (runCompiler (chattyCompiler fooBazFoo "render();")
               (readComponentsList
                  (initialWorld (withList fooBarList) 1000 4500)).2).1
            = Returned (mkSerialized "// render();" (statsOf fooBazFoo)))
    by (vm_compute; reflexivity).
  assert (Hwf : wellFormed fooBazFoo = true) by reflexivity.
  destruct (script_success_output plainChalk (chattyCompiler fooBazFoo)
              (withList fooBarList) 1000 4500 "render();"
              (mkSerialized "// render();" (statsOf fooBazFoo))
              Hinput Hreturns Hwf) as (Hout & _ & _ & Hfiles).
  split; [exact Hinput |]. split; [exact Hreturns |]. split; [exact Hwf |].
  split.
  - rewrite Hout. vm_compute. reflexivity.
  - rewrite Hfiles. apply lookup_insert_eq.
Defined.

Lemma script_fails_after_writing_witness :
  withList fooBarList !! inputPath = Some "render();"
  ∧ (runCompiler (chattyCompiler childless "render();")
       (readComponentsList (initialWorld (withList fooBarList) 1000 4500)).2).1
    = Returned (mkSerialized "// render();" (statsOf childless))
  ∧ wellFormed childless = false
  ∧ files (main plainChalk (chattyCompiler childless)
             (initialWorld (withList fooBarList) 1000 4500)).2 !! outputPath
    = Some "// render();"
  ∧ exitCode (main plainChalk (chattyCompiler childless)
                (initialWorld (withList fooBarList) 1000 4500)).2
    = Some 1%Z
  ∧ stdout (main plainChalk (chattyCompiler childless)
              (initialWorld (withList fooBarList) 1000 4500)).2
    = ["parsing";
       String LF "=== Compilation Complete ===" +:+ String LF "";
       "Evaluated Tree:";
       "- Foo (inlined)"].
Proof.
  assert (Hinput : withList fooBarList !! inputPath = Some "render();")
    by (vm_compute; reflexivity).
  assert (Hreturns :
            (runCompiler (chattyCompiler childless "render();")
               (readComponentsList
                  (initialWorld (withList fooBarList) 1000 4500)).2).1
            = Returned (mkSerialized "// render();" (statsOf childless)))
    by (vm_compute; reflexivity).
  assert (Hwf : wellFormed childless = false) by reflexivity.
  destruct (script_fails_after_writing plainChalk (chattyCompiler childless)
              (withList fooBarList) 1000 4500 "render();"
              (mkSerialized "// render();" (statsOf childless))
              Hinput Hreturns Hwf) as (Hfiles & Hexit & _ & Hout).
  split; [exact Hinput |]. split; [exact Hreturns |]. split; [exact Hwf |].
  split; [exact Hfiles |]. split; [exact Hexit |].
  rewrite Hout. vm_compute. reflexivity.
Defined.

Lemma tracked_value_after_walk_witness :
  JsMap.get "Foo" (components trackingFooBar) = Some (VStr "missing")
  ∧ JsMap.get "Foo"
      (components
         (printReactEvaluationGraph plainChalk fooBazFoo 0 trackingFooBar).2)
    = Some (VArr ["missing"; "bail-out"; "unknown_type"])
  ∧ JsMap.get "Bar"
      (components
         (printReactEvaluationGraph plainChalk fooBazFoo 0 trackingFooBar).2)
    = Some (VStr "missing").
Proof.
  split; [reflexivity |]. split.
  - rewrite (tracked_value_after_walk plainChalk fooBazFoo 0 trackingFooBar
               "Foo" eq_refl).
    vm_compute. reflexivity.
  - rewrite (tracked_value_after_walk plainChalk fooBazFoo 0 trackingFooBar
               "Bar" eq_refl).
    vm_compute. reflexivity.
Defined.

Lemma walk_ignores_untracked_names_witness :
  Forall (λ v, JsMap.get (vName v) (components trackingFooBar) = None)
    (visits (NArray [NLeaf "App" "ROOT" "" (NArray [])])).1
  ∧ components
      (printReactEvaluationGraph plainChalk
         (NArray [NLeaf "App" "ROOT" "" (NArray [])]) 0 trackingFooBar).2
    = [("Foo", VStr "missing"); ("Bar", VStr "missing")]
  ∧ uniqueEvaluatedComponents
      (printReactEvaluationGraph plainChalk
         (NArray [NLeaf "App" "ROOT" "" (NArray [])]) 0 trackingFooBar).2
    = 0.
Proof.
  assert (Hnone :
            Forall (λ v, JsMap.get (vName v) (components trackingFooBar) = None)
              (visits (NArray [NLeaf "App" "ROOT" "" (NArray [])])).1)
    by (repeat constructor).
  destruct (walk_ignores_untracked_names plainChalk _ 0 trackingFooBar Hnone)
    as [Hcomps Huniq].
  split; [exact Hnone |]. split; [rewrite Hcomps | rewrite Huniq]; reflexivity.
Defined.

Lemma loaded_keys_are_the_distinct_lines_witness :
  NoDup (JsMap.keys
           (components
              (readComponentsList
                 (initialWorld
                    (withList (fooBarList +:+ String LF "Foo")) 1000 4500)).2))
  ∧ JsMap.size
      (components
         (readComponentsList
            (initialWorld
               (withList (fooBarList +:+ String LF "Foo")) 1000 4500)).2)
    = 2.
Proof.
  destruct (loaded_keys_are_the_distinct_lines
              (withList (fooBarList +:+ String LF "Foo")) 1000 4500)
    as (Hnodup & _ & _ & Hsize).
  split; [exact Hnodup |]. rewrite Hsize. vm_compute. reflexivity.
Defined.

Lemma loaded_names_have_no_line_feed_witness :
  "Bar" ∈ JsMap.keys
            (components
               (readComponentsList
                  (initialWorld (withList fooBarList) 1000 4500)).2)
  ∧ occursIn LF "Bar" = false.
Proof.
  assert (Hin : "Bar" ∈ JsMap.keys
                          (components
                             (readComponentsList
                                (initialWorld (withList fooBarList)
                                   1000 4500)).2)).
  { rewrite loaded_components.
    replace (withList fooBarList !! componentsListPath) with (Some fooBarList)
      by (vm_compute; reflexivity).
    apply list_elem_of_further, list_elem_of_here. }
  split; [exact Hin |].
  exact (loaded_names_have_no_line_feed _ 1000 4500 "Bar" Hin).
Defined.

